(** * MPC controller node: preprocessing pipeline and control loop

    A shallow embedding of [ros/src/mpc/src/mpc_node.cpp] and the properties
    its specification states about it.

    Numeric model.  A C++ [double] is a real number ([R] of the Standard
    Library): [+], [-], [*], [/] are the exact operations and [<] is the order
    of the reals, [cos], [sin] and [atan] are the functions of the library.
    Rounding, infinities and NaN are outside this model.  [int] is a 32-bit
    two's complement integer and [size_t] a 64-bit unsigned one, both carried
    by [Z] with the wrap-around of every conversion written out.

    C++ reads outside a vector and the remainder by zero are undefined
    behaviour: the functions that can reach them return [option], and [None]
    is that case. *)

From Stdlib Require Import String Ascii ZArith List Bool Reals Lra Lia.
Import ListNotations.

Abbreviation double := R (only parsing).

(** ** Machine integers *)

Module MachineInt.
Local Open Scope Z_scope.

Definition SIZE_MAX_plus_1 : Z := 2 ^ 64.
Definition INT_MIN : Z := - 2 ^ 31.
Definition INT_range : Z := 2 ^ 32.

(** Conversion of an integer value to [size_t]: reduction modulo 2^64. *)
Definition to_size_t (z : Z) : Z := z mod SIZE_MAX_plus_1.

(** Conversion to [int]: the value modulo 2^32 that lies in [-2^31, 2^31). *)
Definition to_int (z : Z) : Z := (z - INT_MIN) mod INT_range + INT_MIN.

(** Unsigned arithmetic wraps.  Signed overflow is undefined in C++; the
    subtraction below wraps as the usual compilers make it, and no property
    in this file is proved of an overflowing one. *)
Definition size_t_add (a b : Z) : Z := to_size_t (a + b).
Definition size_t_mul (a b : Z) : Z := to_size_t (a * b).
Definition int_sub (a b : Z) : Z := to_int (a - b).

End MachineInt.
Import MachineInt.

(** ** Option as the carrier of undefined behaviour *)

Definition bind {A B : Type} (m : option A) (k : A -> option B) : option B :=
  match m with
  | Some a => k a
  | None => None
  end.

Notation "x <- m ;; k" := (bind m (fun x => k))
  (at level 61, m at next level, right associativity).
Notation "' p <- m ;; k" := (bind m (fun x => match x with p => k end))
  (at level 61, p pattern, m at next level, right associativity).

(** ** [double] comparison and libm *)

Definition double_lt (a b : double) : bool :=
  if Rlt_dec a b then true else false.

(** [atan2 y x]: the angle of the point (x, y), in (-PI, PI]. *)
Definition atan2 (y x : double) : double :=
  if double_lt 0 x then atan (y / x)
  else if double_lt x 0 then
    (if double_lt y 0 then atan (y / x) - PI else atan (y / x) + PI)%R
  else if double_lt 0 y then (PI / 2)%R
  else if double_lt y 0 then (- PI / 2)%R
  else 0%R.

(** ** Messages, diagnostics and observable events *)

(** [geometry_msgs::Point], without the z coordinate the node never reads. *)
Record Point := { point_x : double; point_y : double }.

Record Quaternion := { o_w : double; o_x : double; o_y : double; o_z : double }.

(** What a subscription delivers, with the fields its callback reads. *)
Inductive Message :=
| centerline (points : list Point)
| odom (twist_linear_x : double)
| pf_pose_odom (position_x position_y : double) (orientation : Quaternion).

Inductive Topic :=
| mpc_angle | mpc_throttle | mpc_closest_cpp | mpc_next_pos_cpp | mpc_poly_cpp.

(** The [ROS_WARN] lines of [loop], each with the values it prints; the
    clock readings of the last one are not modelled. *)
Inductive Diagnostic :=
| x_delta_too_low_at (i : nat)
| coeffs_are (c0 c1 c2 c3 : double)
| cte_epsi_psi (cte epsi psi : double)
| steer_throttle (steer throttle : double)
| callback_timing
| no_optimization (pts_OK speed_OK pos_OK psi_OK : bool).

(** What one pass of the loop does to the outside: log lines, published
    messages, and the calls to the fitter and to the solver. *)
Inductive Event :=
| ROS_WARN (d : Diagnostic)
| publish_Float32 (topic : Topic) (data : double)
| publish_Marker (topic : Topic) (points : list Point)
| call_polyfit (xvals yvals : list double) (order : nat)
| call_Solve (state coeffs vars : list double).

(** ** Start-up parameters *)

Record Params := {
  steps_ahead : Z;
  dt : double;
  latency : double;
  cte_coeff : double;
  epsi_coeff : double;
  speed_coeff : double;
  acc_coeff : double;
  steer_coeff : double;
  consec_acc_coeff : double;
  consec_steer_coeff : double;
  debug : bool
}.

(** ** What the node takes from outside this file *)

(** The constants of [mpc_node.h]. *)
Class Header := {
  NUM_STEPS_POLY : nat;
  STEP_POLY : Z;
  NUM_STEPS_BACK : Z;
  POLY_DEGREE : nat;
  X_DELTA_MIN_VALUE : double;
  CENTER_IN_DZIK : double;
  Lf : double
}.

(** The solver object of [MPC.h] and the least-squares fitter.  [Solve] may
    keep state of its own between calls, so the object is threaded. *)
Class Collaborators := {
  MPC : Type;
  MPC_of_params : Params -> MPC;
  Solve : MPC -> list double -> list double -> list double * MPC;
  polyfit : list double -> list double -> nat -> list double
}.

(** The two libc conversions [main] calls. *)
Class Libc := {
  atoi : string -> Z;
  atof : string -> double
}.

(** Modelled from the spec: [polyeval] is declared in [MPC.h] and defined
    outside the sources; the spec gives the fitted polynomial over the
    design row [1, x, x^2, ..., x^D], so [polyeval coeffs x] is the sum of
    [c_i * x^i]. *)
Fixpoint polyeval_from (i : nat) (coeffs : list double) (x : double) : double :=
  match coeffs with
  | [] => 0%R
  | c :: coeffs' => (c * x ^ i + polyeval_from (S i) coeffs' x)%R
  end.

Definition polyeval (coeffs : list double) (x : double) : double :=
  polyeval_from 0 coeffs x.

(** ** [MPCControllerNode::find_closest] *)

(** The [for] loop from index [i] on, over what is left of both vectors;
    [pts_y] running out before [pts_x] is a read past its end. *)
Fixpoint find_closest_from (i : Z) (pts_x pts_y : list double)
  (pos_x pos_y : double) (closest_idx : Z) (closest_dist : double)
  : option Z :=
  match pts_x, pts_y with
  | [], _ => Some closest_idx
  | x :: pts_x', y :: pts_y' =>
      let diff_x := (x - pos_x)%R in
      let diff_y := (y - pos_y)%R in
      let dist := (diff_x * diff_x + diff_y * diff_y)%R in
      if double_lt dist closest_dist
      then find_closest_from (i + 1) pts_x' pts_y' pos_x pos_y (to_int i) dist
      else find_closest_from (i + 1) pts_x' pts_y' pos_x pos_y
             closest_idx closest_dist
  | _ :: _, [] => None
  end.

Definition find_closest (pts_x pts_y : list double) (pos_x pos_y : double)
  : option Z :=
  find_closest_from 0 pts_x pts_y pos_x pos_y (-1) 999999999%R.

(** ** [MPCControllerNode::get_marker] *)

(** The points of the marker, from the pairs of [vars] that follow the two
    actuator values; an odd tail reads [vars[i+1]] past the end. *)
Fixpoint marker_points (vars : list double)
  (pos_x_lat pos_y_lat sin_psi_lat cos_psi_lat : double)
  : option (list Point) :=
  match vars with
  | [] => Some []
  | x :: y :: vars' =>
      let x_rot := (x * cos_psi_lat - y * sin_psi_lat)%R in
      let y_rot := (x * sin_psi_lat + y * cos_psi_lat)%R in
      ps <- marker_points vars' pos_x_lat pos_y_lat sin_psi_lat cos_psi_lat ;;
      Some ({| point_x := (x_rot + pos_x_lat)%R;
               point_y := (y_rot + pos_y_lat)%R |} :: ps)
  | [_] => None
  end.

(** [reserve((vars.size() - 2) / 2)] is computed in [size_t]: below two
    elements it asks for more than a vector can hold and throws. *)
Definition get_marker (vars : list double)
  (pos_x_lat pos_y_lat sin_psi_lat cos_psi_lat : double)
  : option (list Point) :=
  if (length vars <? 2)%nat then None
  else marker_points (skipn 2 vars) pos_x_lat pos_y_lat sin_psi_lat cos_psi_lat.

(** ** The node *)

Section Node.
Context {hdr : Header} {ext : Collaborators}.

(** The data members of [MPCControllerNode] that the callbacks and the loop
    read or write (publishers, subscribers and clock readings left out). *)
Record Node := {
  m_pts_OK : bool;
  m_pos_OK : bool;
  m_speed_OK : bool;
  m_psi_OK : bool;
  m_debug : bool;
  m_steer : double;
  m_throttle : double;
  m_pts_x : list double;
  m_pts_y : list double;
  m_speed : double;
  m_pos_x : double;
  m_pos_y : double;
  m_psi : double;
  m_latency : double;
  m_controller : MPC
}.

(** The members the constructor does not assign keep whatever value their
    declaration in the header gives them. *)
Record Unassigned := {
  u_speed : double;
  u_pos_x : double;
  u_pos_y : double;
  u_psi : double;
  u_latency : double
}.

(** The constructor [MPCControllerNode::MPCControllerNode]. *)
Definition MPCControllerNode (params : Params) (u : Unassigned) : Node :=
  {| m_pts_OK := false;
     m_pos_OK := false;
     m_speed_OK := false;
     m_psi_OK := false;
     m_debug := debug params;
     m_steer := 0%R;
     m_throttle := 0%R;
     m_pts_x := [];
     m_pts_y := [];
     m_speed := u_speed u;
     m_pos_x := u_pos_x u;
     m_pos_y := u_pos_y u;
     m_psi := u_psi u;
     m_latency := u_latency u;
     m_controller := MPC_of_params params |}.

(** *** Callbacks *)

(** [reserve] changes capacity only; the two [push_back]s per point fill
    the vectors in step. *)
Definition centerline_cb (data_points : list Point) (s : Node) : Node :=
  {| m_pts_OK := true;
     m_pos_OK := m_pos_OK s;
     m_speed_OK := m_speed_OK s;
     m_psi_OK := m_psi_OK s;
     m_debug := m_debug s;
     m_steer := m_steer s;
     m_throttle := m_throttle s;
     m_pts_x := map point_x data_points;
     m_pts_y := map point_y data_points;
     m_speed := m_speed s;
     m_pos_x := m_pos_x s;
     m_pos_y := m_pos_y s;
     m_psi := m_psi s;
     m_latency := m_latency s;
     m_controller := m_controller s |}.

Definition odom_cb (twist_linear_x : double) (s : Node) : Node :=
  {| m_pts_OK := m_pts_OK s;
     m_pos_OK := m_pos_OK s;
     m_speed_OK := true;
     m_psi_OK := m_psi_OK s;
     m_debug := m_debug s;
     m_steer := m_steer s;
     m_throttle := m_throttle s;
     m_pts_x := m_pts_x s;
     m_pts_y := m_pts_y s;
     m_speed := twist_linear_x;
     m_pos_x := m_pos_x s;
     m_pos_y := m_pos_y s;
     m_psi := m_psi s;
     m_latency := m_latency s;
     m_controller := m_controller s |}.

Definition pf_pose_odom_cb (position_x position_y : double) (o : Quaternion)
  (s : Node) : Node :=
  let siny_cosp := (2 * (o_w o * o_z o + o_x o * o_y o))%R in
  let cosy_cosp := (1 - 2 * (o_y o * o_y o + o_z o * o_z o))%R in
  {| m_pts_OK := m_pts_OK s;
     m_pos_OK := true;
     m_speed_OK := m_speed_OK s;
     m_psi_OK := true;
     m_debug := m_debug s;
     m_steer := m_steer s;
     m_throttle := m_throttle s;
     m_pts_x := m_pts_x s;
     m_pts_y := m_pts_y s;
     m_speed := m_speed s;
     m_pos_x := position_x;
     m_pos_y := position_y;
     m_psi := atan2 siny_cosp cosy_cosp;
     m_latency := m_latency s;
     m_controller := m_controller s |}.

(** What [ros::spinOnce] does with one delivered message. *)
Definition deliver (msg : Message) (s : Node) : Node :=
  match msg with
  | centerline points => centerline_cb points s
  | odom v => odom_cb v s
  | pf_pose_odom x y o => pf_pose_odom_cb x y o s
  end.

Definition spinOnce (msgs : list Message) (s : Node) : Node :=
  fold_left (fun s' msg => deliver msg s') msgs s.

(** The conjunction [loop] tests. *)
Definition ready (s : Node) : bool :=
  m_pts_OK s && m_speed_OK s && m_pos_OK s && m_psi_OK s.

(** *** The Ready branch of [loop] *)

(** [(closest_idx + i*STEP_POLY) % m_pts_x.size()], then the conversion to
    [int]: [i] is a [size_t], so the product, the sum and the remainder are
    unsigned 64-bit operations on the converted operands. *)
Definition window_idx (closest_idx : Z) (i : nat) (size : nat) : option Z :=
  if (size =? 0)%nat then None
  else
    let step := size_t_mul (Z.of_nat i) (to_size_t STEP_POLY) in
    let sum := size_t_add (to_size_t closest_idx) step in
    Some (to_int (sum mod Z.of_nat size)).

(** [v[idx]] with an [int] index: the index is converted to [size_t]. *)
Definition at_int (v : list double) (idx : Z) : option double :=
  nth_error v (Z.to_nat (to_size_t idx)).

(** The extraction loop, [n] passes from index [i] on. *)
Fixpoint closest_pts_loop (n i : nat) (pts_x pts_y : list double)
  (closest_idx : Z) (closest_pts_x closest_pts_y : list double)
  : option (list double * list double) :=
  match n with
  | O => Some (closest_pts_x, closest_pts_y)
  | S n' =>
      idx <- window_idx closest_idx i (length pts_x) ;;
      x <- at_int pts_x idx ;;
      y <- at_int pts_y idx ;;
      closest_pts_loop n' (S i) pts_x pts_y closest_idx
        (closest_pts_x ++ [x]) (closest_pts_y ++ [y])
  end.

(** Rotation of a window point into the car's frame. *)
Definition x_rot_of (gx gy pos_x_lat pos_y_lat sin_psi_lat cos_psi_lat : double)
  : double :=
  let dx := (gx - pos_x_lat)%R in
  let dy := (gy - pos_y_lat)%R in
  (dx * cos_psi_lat + dy * sin_psi_lat)%R.

Definition y_rot_of (gx gy pos_x_lat pos_y_lat sin_psi_lat cos_psi_lat : double)
  : double :=
  let dx := (gx - pos_x_lat)%R in
  let dy := (gy - pos_y_lat)%R in
  (- dx * sin_psi_lat + dy * cos_psi_lat)%R.

(** The test behind [x_delta_too_low]. *)
Definition x_delta_too_low (x_rot prev : double) : bool :=
  double_lt (x_rot - prev) X_DELTA_MIN_VALUE.

(** The transformation loop with its check, [n] passes from index [i] on;
    the [break] returns what was pushed so far. *)
Fixpoint transform_loop (n i : nat) (closest_pts_x closest_pts_y : list double)
  (pos_x_lat pos_y_lat sin_psi_lat cos_psi_lat : double)
  (xvals_vec yvals_vec : list double)
  : option (list double * list double * list Event) :=
  match n with
  | O => Some (xvals_vec, yvals_vec, [])
  | S n' =>
      gx <- nth_error closest_pts_x i ;;
      gy <- nth_error closest_pts_y i ;;
      let x_rot := x_rot_of gx gy pos_x_lat pos_y_lat sin_psi_lat cos_psi_lat in
      let y_rot := y_rot_of gx gy pos_x_lat pos_y_lat sin_psi_lat cos_psi_lat in
      too_low <- (if (POLY_DEGREE <? i)%nat
                  then prev <- nth_error xvals_vec (i - 1) ;;
                       Some (x_delta_too_low x_rot prev)
                  else Some false) ;;
      if (too_low : bool)
      then Some (xvals_vec, yvals_vec, [ROS_WARN (x_delta_too_low_at i)])
      else transform_loop n' (S i) closest_pts_x closest_pts_y
             pos_x_lat pos_y_lat sin_psi_lat cos_psi_lat
             (xvals_vec ++ [x_rot]) (yvals_vec ++ [y_rot])
  end.

(** [closest_vars]: the accepted points, x and y interleaved. *)
Fixpoint interleave (xs ys : list double) : option (list double) :=
  match xs, ys with
  | [], _ => Some []
  | x :: xs', y :: ys' => vs <- interleave xs' ys' ;; Some (x :: y :: vs)
  | _ :: _, [] => None
  end.

(** [for (double x=0; x < 2.1; x+=0.2)], at most [fuel] passes. *)
Fixpoint poly_samples (fuel : nat) (coeffs : list double) (x : double)
  (vars2 : list double) : list double :=
  match fuel with
  | O => vars2
  | S fuel' =>
      if double_lt x 2.1
      then poly_samples fuel' coeffs (x + 0.2)%R (vars2 ++ [x; polyeval coeffs x])
      else vars2
  end.

(** Twelve passes are one more than the loop makes. *)
Definition poly_samples_fuel : nat := 12.

(** The [if (m_debug)] block. *)
Definition debug_markers (xvals_vec yvals_vec coeffs vars : list double)
  (pos_x_lat pos_y_lat sin_psi_lat cos_psi_lat : double)
  : option (list Event) :=
  closest_vars <- interleave xvals_vec yvals_vec ;;
  closest_marker <- get_marker closest_vars
                      pos_x_lat pos_y_lat sin_psi_lat cos_psi_lat ;;
  next_pos_marker <- get_marker vars
                       pos_x_lat pos_y_lat sin_psi_lat cos_psi_lat ;;
  let vars2 := poly_samples poly_samples_fuel coeffs 0%R [0%R; 0%R] in
  poly_marker <- get_marker vars2
                   pos_x_lat pos_y_lat sin_psi_lat cos_psi_lat ;;
  Some [publish_Marker mpc_closest_cpp closest_marker;
        publish_Marker mpc_next_pos_cpp next_pos_marker;
        publish_Marker mpc_poly_cpp poly_marker].

(** The assignment [m_steer = ...], with the solver object as [Solve]
    left it. *)
Definition set_steer (steer : double) (controller : MPC) (s : Node) : Node :=
  {| m_pts_OK := m_pts_OK s;
     m_pos_OK := m_pos_OK s;
     m_speed_OK := m_speed_OK s;
     m_psi_OK := m_psi_OK s;
     m_debug := m_debug s;
     m_steer := steer;
     m_throttle := m_throttle s;
     m_pts_x := m_pts_x s;
     m_pts_y := m_pts_y s;
     m_speed := m_speed s;
     m_pos_x := m_pos_x s;
     m_pos_y := m_pos_y s;
     m_psi := m_psi s;
     m_latency := m_latency s;
     m_controller := controller |}.

(** The Ready branch after the latency step: from [find_closest] to the
    timing line. *)
Definition track (s : Node) (v_lat psi_lat pos_x_lat pos_y_lat : double)
  : option (Node * list Event) :=
  closest_idx <- find_closest (m_pts_x s) (m_pts_y s) pos_x_lat pos_y_lat ;;
  let closest_idx := int_sub closest_idx NUM_STEPS_BACK in
  ' (closest_pts_x, closest_pts_y) <-
      closest_pts_loop NUM_STEPS_POLY 0 (m_pts_x s) (m_pts_y s) closest_idx [] [] ;;
  let sin_psi_lat := sin psi_lat in
  let cos_psi_lat := cos psi_lat in
  ' (xvals_vec, yvals_vec, breaking) <-
      transform_loop NUM_STEPS_POLY 0 closest_pts_x closest_pts_y
        pos_x_lat pos_y_lat sin_psi_lat cos_psi_lat [] [] ;;
  let coeffs := polyfit xvals_vec yvals_vec POLY_DEGREE in
  c0 <- nth_error coeffs 0 ;;
  c1 <- nth_error coeffs 1 ;;
  c2 <- nth_error coeffs 2 ;;
  c3 <- nth_error coeffs 3 ;;
  let cte := polyeval coeffs 0%R in
  let epsi := (- atan c1)%R in
  let state := [0%R; 0%R; 0%R; v_lat; cte; epsi] in
  let (vars, controller) := Solve (m_controller s) state coeffs in
  steering_angle_in_radians <- nth_error vars 0 ;;
  acceleration_in_meters_by_sec2 <- nth_error vars 1 ;;
  let steer := (CENTER_IN_DZIK - steering_angle_in_radians)%R in
  markers <- (if m_debug s
              then debug_markers xvals_vec yvals_vec coeffs vars
                     pos_x_lat pos_y_lat sin_psi_lat cos_psi_lat
              else Some []) ;;
  Some (set_steer steer controller s,
        breaking
        ++ [call_polyfit xvals_vec yvals_vec POLY_DEGREE;
            ROS_WARN (coeffs_are c0 c1 c2 c3);
            ROS_WARN (cte_epsi_psi cte epsi (m_psi s));
            call_Solve state coeffs vars;
            ROS_WARN (steer_throttle steering_angle_in_radians
                        acceleration_in_meters_by_sec2);
            publish_Float32 mpc_angle steer]
        ++ markers
        ++ [ROS_WARN callback_timing]).

(** One pass of the [while] body, up to [ros::spinOnce]. *)
Definition loop_body (s : Node) : option (Node * list Event) :=
  if m_pts_OK s && m_speed_OK s && m_pos_OK s && m_psi_OK s then
    let v_lat := (m_speed s + m_latency s * m_throttle s)%R in
    let psi_lat := (m_psi s - m_latency s * (v_lat * m_steer s / Lf))%R in
    let pos_x_lat := (m_pos_x s + m_latency s * (v_lat * cos psi_lat))%R in
    let pos_y_lat := (m_pos_y s + m_latency s * (v_lat * sin psi_lat))%R in
    track s v_lat psi_lat pos_x_lat pos_y_lat
  else
    Some (s, [ROS_WARN (no_optimization (m_pts_OK s) (m_speed_OK s)
                          (m_pos_OK s) (m_psi_OK s))]).

(** [loop]: one entry of [deliveries] per pass of the [while], holding the
    messages its [ros::spinOnce] hands to the callbacks; the list ends where
    [m_nodehandle.ok()] turns false. *)
Fixpoint loop (deliveries : list (list Message)) (s : Node)
  : option (Node * list Event) :=
  match deliveries with
  | [] => Some (s, [])
  | msgs :: deliveries' =>
      ' (s1, events1) <- loop_body s ;;
      ' (s2, events2) <- loop deliveries' (spinOnce msgs s1) ;;
      Some (s2, events1 ++ events2)
  end.

End Node.

(** ** [main] *)

(** What [main] writes to standard output. *)
Inductive Output :=
| too_many_arguments
| too_few_arguments
| bad_debug_argument (arg : string)
| parameters_are (params : Params)
| latency_too_high (latency : double).

(** How start-up ends: [main] returns before the node exists, or the node
    is built from [params] and [loop] is entered. *)
Inductive Startup :=
| returns (status : Z) (out : list Output)
| enters_loop (params : Params) (out : list Output).

Definition argv_at (argv : list string) (k : nat) : string :=
  nth k argv EmptyString.

Section Main.
Context {libc : Libc}.

(** The part of [main] after the arguments are read. *)
Definition start (params : Params) : Startup :=
  enters_loop params
    (parameters_are params
     :: (if double_lt 1 (latency params)
         then [latency_too_high (latency params)] else [])).

(** [argv] is the argument vector as [ros::init] leaves it, [argc] its
    length. *)
Definition main (argv : list string) : Startup :=
  let argc := length argv in
  let num_expected_args := 12%nat in
  if (argc =? num_expected_args)%nat then
    let params (debug_value : bool) :=
      {| steps_ahead := atoi (argv_at argv 1);
         dt := atof (argv_at argv 2);
         latency := atof (argv_at argv 3);
         cte_coeff := atof (argv_at argv 4);
         epsi_coeff := atof (argv_at argv 5);
         speed_coeff := atof (argv_at argv 6);
         acc_coeff := atof (argv_at argv 7);
         steer_coeff := atof (argv_at argv 8);
         consec_acc_coeff := atof (argv_at argv 9);
         consec_steer_coeff := atof (argv_at argv 10);
         debug := debug_value |} in
    let debug_msg := argv_at argv 11 in
    if String.eqb debug_msg "true" then start (params true)
    else if String.eqb debug_msg "false" then start (params false)
    else returns 1 [bad_debug_argument debug_msg]
  else if (num_expected_args <? argc)%nat then returns 1 [too_many_arguments]
  else returns 1 [too_few_arguments].

End Main.

(** * The specification's side *)

(** The Latency Compensator as the specification writes it: one explicit
    Euler step of the kinematic bicycle model, giving (x', y', psi', v'). *)
Definition bicycle_euler_step (x y psi v delta a L Lf_ : R) : R * R * R * R :=
  let v' := (v + L * a)%R in
  let psi' := (psi - L * (v' * delta / Lf_))%R in
  let x' := (x + L * (v' * cos psi'))%R in
  let y' := (y + L * (v' * sin psi'))%R in
  (x', y', psi', v').

(** The window index as the specification writes it, with the mathematical
    modulo. *)
Definition circular_index (closest_idx back_offset stride : Z)
  (path_length : nat) (k : nat) : Z :=
  ((closest_idx - back_offset + Z.of_nat k * stride) mod Z.of_nat path_length)%Z.

(** Squared Euclidean distance of path point [i] to the query point. *)
Definition sq_dist (pts_x pts_y : list R) (pos_x pos_y : R) (i : nat) : R :=
  let diff_x := (nth i pts_x 0 - pos_x)%R in
  let diff_y := (nth i pts_y 0 - pos_y)%R in
  (diff_x * diff_x + diff_y * diff_y)%R.

(** The nearest-point property: [i] is an index of the path, no index is
    strictly nearer, and no lower index is as near. *)
Definition lowest_nearest (pts_x pts_y : list R) (pos_x pos_y : R) (i : Z)
  : Prop :=
  (0 <= i < Z.of_nat (length pts_x))%Z
  /\ (forall j, (j < length pts_x)%nat ->
        (sq_dist pts_x pts_y pos_x pos_y (Z.to_nat i)
         <= sq_dist pts_x pts_y pos_x pos_y j)%R)
  /\ (forall j, (j < Z.to_nat i)%nat ->
        (sq_dist pts_x pts_y pos_x pos_y (Z.to_nat i)
         < sq_dist pts_x pts_y pos_x pos_y j)%R).

(** A well-formed numeric configuration value: an optional sign, at least
    one digit, and an optional fraction. *)
Definition is_digit (c : ascii) : bool :=
  ((48 <=? nat_of_ascii c) && (nat_of_ascii c <=? 57))%nat.

Fixpoint all_digits (s : string) : bool :=
  match s with
  | EmptyString => true
  | String c s' => is_digit c && all_digits s'
  end.

Fixpoint split_point (s : string) : string * option string :=
  match s with
  | EmptyString => (EmptyString, None)
  | String c s' =>
      if Ascii.eqb c "."%char then (EmptyString, Some s')
      else let (int_part, frac) := split_point s' in (String c int_part, frac)
  end.

Definition unsigned_decimal (s : string) : bool :=
  match split_point s with
  | (int_part, None) => negb (String.eqb int_part "") && all_digits int_part
  | (int_part, Some frac) =>
      negb (String.eqb int_part "") && all_digits int_part && all_digits frac
  end.

Definition well_formed_number (s : string) : bool :=
  match s with
  | String c s' =>
      if Ascii.eqb c "-"%char || Ascii.eqb c "+"%char
      then unsigned_decimal s' else unsigned_decimal s
  | EmptyString => false
  end.

Definition well_formed_toggle (s : string) : bool :=
  String.eqb s "true" || String.eqb s "false".

(** Every required configuration value is present and well-formed: the
    program name and eleven values, ten numbers and the debug toggle. *)
Definition well_formed_config (argv : list string) : bool :=
  (length argv =? 12)%nat
  && forallb (fun k => well_formed_number (argv_at argv k)) (seq 1 10)
  && well_formed_toggle (argv_at argv 11).

(** The window in the car's frame, as the transformation computes it point
    by point. *)
Fixpoint local_xs (closest_pts_x closest_pts_y : list R)
  (pos_x_lat pos_y_lat sin_psi_lat cos_psi_lat : R) : list R :=
  match closest_pts_x, closest_pts_y with
  | gx :: xs, gy :: ys =>
      x_rot_of gx gy pos_x_lat pos_y_lat sin_psi_lat cos_psi_lat
      :: local_xs xs ys pos_x_lat pos_y_lat sin_psi_lat cos_psi_lat
  | _, _ => []
  end.

Fixpoint local_ys (closest_pts_x closest_pts_y : list R)
  (pos_x_lat pos_y_lat sin_psi_lat cos_psi_lat : R) : list R :=
  match closest_pts_x, closest_pts_y with
  | gx :: xs, gy :: ys =>
      y_rot_of gx gy pos_x_lat pos_y_lat sin_psi_lat cos_psi_lat
      :: local_ys xs ys pos_x_lat pos_y_lat sin_psi_lat cos_psi_lat
  | _, _ => []
  end.

(** The x-delta of position [k] of a window: its x minus the x before it. *)
Definition x_delta (xs : list R) (k : nat) : R :=
  (nth k xs 0 - nth (k - 1) xs 0)%R.

(** Readiness kept from one state of the node to a later one, flag by
    flag. *)
Definition flags_kept {ext : Collaborators} (s s' : Node) : Prop :=
  (m_pts_OK s = true -> m_pts_OK s' = true)
  /\ (m_speed_OK s = true -> m_speed_OK s' = true)
  /\ (m_pos_OK s = true -> m_pos_OK s' = true)
  /\ (m_psi_OK s = true -> m_psi_OK s' = true).

(** The reading of "the values the solver returned are the last commanded
    values": after the pass, [m_steer] and [m_throttle] hold the first two
    elements of what [Solve] returned in it. *)
Definition records_solver_output {ext : Collaborators} (s' : Node)
  (events : list Event) : Prop :=
  forall state coeffs vars,
    In (call_Solve state coeffs vars) events ->
    nth_error vars 0 = Some (m_steer s')
    /\ nth_error vars 1 = Some (m_throttle s').

(** A message on the throttle topic. *)
Definition is_throttle_publication (e : Event) : bool :=
  match e with
  | publish_Float32 mpc_throttle _ => true
  | _ => false
  end.

(** * A small configuration to run the definitions on *)

(** Conversions in the manner of [atoi] and [atof] for plain decimal text:
    an optional sign, the leading digits, and for [atof] a fraction; text
    with no leading digit converts to 0. *)
Definition digit_value (c : ascii) : Z := (Z.of_nat (nat_of_ascii c) - 48)%Z.

Fixpoint leading_digits (acc : Z) (s : string) : Z * string :=
  match s with
  | String c s' =>
      if is_digit c then leading_digits (10 * acc + digit_value c)%Z s'
      else (acc, s)
  | EmptyString => (acc, s)
  end.

Definition unsigned_integer (s : string) : Z := fst (leading_digits 0 s).

Definition unsigned_real (s : string) : R :=
  let (int_part, rest) := leading_digits 0 s in
  match rest with
  | String c frac =>
      if Ascii.eqb c "."%char
      then
        let (num, rest') := leading_digits 0 frac in
        let digits := (String.length frac - String.length rest')%nat in
        (IZR int_part + IZR num / 10 ^ digits)%R
      else IZR int_part
  | EmptyString => IZR int_part
  end.

Definition decimal_atoi (s : string) : Z :=
  match s with
  | String c s' =>
      if Ascii.eqb c "-"%char then (- unsigned_integer s')%Z
      else if Ascii.eqb c "+"%char then unsigned_integer s'
      else unsigned_integer s
  | EmptyString => 0%Z
  end.

Definition decimal_atof (s : string) : R :=
  match s with
  | String c s' =>
      if Ascii.eqb c "-"%char then (- unsigned_real s')%R
      else if Ascii.eqb c "+"%char then unsigned_real s'
      else unsigned_real s
  | EmptyString => 0%R
  end.


Module Example.

(** A cubic fit over five points, one step back, stride one. *)
#[export] Instance header : Header :=
  {| NUM_STEPS_POLY := 5;
     STEP_POLY := 1;
     NUM_STEPS_BACK := 1;
     POLY_DEGREE := 3;
     X_DELTA_MIN_VALUE := 0.001;
     CENTER_IN_DZIK := 0;
     Lf := 0.325 |}.

(** A fitter that answers the zero cubic and a solver that always asks for
    steering 0.25 and acceleration 1. *)
#[export] Instance collaborators : Collaborators :=
  {| MPC := unit;
     MPC_of_params := fun _ => tt;
     Solve := fun _ _ _ => ([0.25; 1]%R, tt);
     polyfit := fun _ _ _ => [0; 0; 0; 0]%R |}.

Definition params : Params :=
  {| steps_ahead := 10;
     dt := 0.1;
     latency := 0.1;
     cte_coeff := 1;
     epsi_coeff := 1;
     speed_coeff := 1;
     acc_coeff := 1;
     steer_coeff := 1;
     consec_acc_coeff := 1;
     consec_steer_coeff := 1;
     debug := false |}.

Definition unassigned : Unassigned :=
  {| u_speed := 0; u_pos_x := 0; u_pos_y := 0; u_psi := 0; u_latency := 0.1 |}.

(** The node as constructed, before any message. *)
Definition fresh : Node := MPCControllerNode params unassigned.

(** A straight path of three points along the x axis. *)
Definition path : list Point :=
  [ {| point_x := 0; point_y := 0 |};
    {| point_x := 10; point_y := 0 |};
    {| point_x := 20; point_y := 0 |} ].

Definition upright : Quaternion :=
  {| o_w := 1; o_x := 0; o_y := 0; o_z := 0 |}.

(** The node after one message of each kind: the car stands on the first
    path point, at speed 1. *)
Definition on_path : Node :=
  spinOnce [centerline path; odom 1; pf_pose_odom 0 0 upright] fresh.

(** What a pass of the loop makes of [on_path]: the node it leaves and the
    events it produces. *)
Definition after_pass : Node := set_steer (0 - 0.25)%R tt on_path.

Definition pass_events : list Event :=
  [ROS_WARN (x_delta_too_low_at 4);
   call_polyfit [-0.1; -0.1; 9.9; 19.9]%R [0; 0; 0; 0]%R 3;
   ROS_WARN (coeffs_are 0 0 0 0);
   ROS_WARN (cte_epsi_psi 0 0 0);
   call_Solve [0; 0; 0; 1; 0; 0]%R [0; 0; 0; 0]%R [0.25; 1]%R;
   ROS_WARN (steer_throttle 0.25 1);
   publish_Float32 mpc_angle (0 - 0.25)%R;
   ROS_WARN callback_timing].

#[export] Instance libc : Libc :=
  {| atoi := decimal_atoi; atof := decimal_atof |}.

(** The same node in debug mode. *)
Definition params_debug : Params :=
  {| steps_ahead := 10;
     dt := 0.1;
     latency := 0.1;
     cte_coeff := 1;
     epsi_coeff := 1;
     speed_coeff := 1;
     acc_coeff := 1;
     steer_coeff := 1;
     consec_acc_coeff := 1;
     consec_steer_coeff := 1;
     debug := true |}.

Definition on_path_debug : Node :=
  spinOnce [centerline path; odom 1; pf_pose_odom 0 0 upright]
    (MPCControllerNode params_debug unassigned).

(** The same node with a latency member of 0. *)
Definition on_path_no_latency : Node :=
  spinOnce [centerline path; odom 1; pf_pose_odom 0 0 upright]
    (MPCControllerNode params
       {| u_speed := 0; u_pos_x := 0; u_pos_y := 0; u_psi := 0;
          u_latency := 0 |}).

(** A node made ready by a centerline message without points. *)
Definition on_empty_path : Node :=
  spinOnce [centerline []; odom 1; pf_pose_odom 0 0 upright] fresh.

(** A well-formed argument vector. *)
Definition argv_ok : list string :=
  ["mpc_node"; "10"; "0.1"; "0.1"; "1"; "1"; "1"; "1"; "1"; "1"; "1"; "false"]%string.

(** An argument vector with a malformed horizon length. *)
Definition argv_abc : list string :=
  ["mpc_node"; "abc"; "0.1"; "0.1"; "1"; "1"; "1"; "1"; "1"; "1"; "1"; "true"]%string.

End Example.

(** * Observations on messages and events *)

(** The topic a message came in on. *)
Definition is_centerline (msg : Message) : bool :=
  match msg with centerline _ => true | _ => false end.

Definition is_odom (msg : Message) : bool :=
  match msg with odom _ => true | _ => false end.

Definition is_pf_pose_odom (msg : Message) : bool :=
  match msg with pf_pose_odom _ _ _ => true | _ => false end.

Definition same_topic (a b : Message) : bool :=
  (is_centerline a && is_centerline b)
  || (is_odom a && is_odom b)
  || (is_pf_pose_odom a && is_pf_pose_odom b).

(** The kinds of event a pass can produce. *)
Definition is_no_optimization (e : Event) : bool :=
  match e with ROS_WARN (no_optimization _ _ _ _) => true | _ => false end.

Definition is_Solve_call (e : Event) : bool :=
  match e with call_Solve _ _ _ => true | _ => false end.

Definition is_polyfit_call (e : Event) : bool :=
  match e with call_polyfit _ _ _ => true | _ => false end.

Definition is_angle_publication (e : Event) : bool :=
  match e with publish_Float32 mpc_angle _ => true | _ => false end.

Definition is_marker_publication (e : Event) : bool :=
  match e with publish_Marker _ _ => true | _ => false end.

Definition count (p : Event -> bool) (events : list Event) : nat :=
  length (filter p events).

(** The topics of the markers published, in order. *)
Fixpoint marker_topics (events : list Event) : list Topic :=
  match events with
  | [] => []
  | publish_Marker topic _ :: events' => topic :: marker_topics events'
  | _ :: events' => marker_topics events'
  end.

(** The orientation of a rotation by [yaw] about the vertical axis. *)
Definition yaw_quaternion (yaw : R) : Quaternion :=
  {| o_w := cos (yaw / 2); o_x := 0; o_y := 0; o_z := sin (yaw / 2) |}.

(** Two states of the node that differ at most in what a pass of the loop
    writes: the stored steering and the solver object. *)
Definition same_inputs {ext : Collaborators} (s s' : Node) : Prop :=
  m_pts_OK s = m_pts_OK s' /\ m_speed_OK s = m_speed_OK s'
  /\ m_pos_OK s = m_pos_OK s' /\ m_psi_OK s = m_psi_OK s'
  /\ m_pts_x s = m_pts_x s' /\ m_pts_y s = m_pts_y s'
  /\ m_speed s = m_speed s' /\ m_pos_x s = m_pos_x s'
  /\ m_pos_y s = m_pos_y s' /\ m_psi s = m_psi s'
  /\ m_latency s = m_latency s' /\ m_debug s = m_debug s'
  /\ m_throttle s = m_throttle s'.

(** * Tactics *)

(** Splits a successful [bind] in a hypothesis into its two steps. *)
Ltac bind_inv H :=
  match type of H with
  | bind ?m _ = Some _ =>
      let E := fresh "E" in
      destruct m eqn:E; cbn [bind] in H; [|discriminate H]
  end.

(** * Properties *)

(** ** Comparison and machine integers *)

Lemma double_lt_true (a b : R) : double_lt a b = true <-> (a < b)%R.
Proof.
  unfold double_lt. destruct (Rlt_dec a b); split; intros; try discriminate; tauto.
Qed.

Lemma double_lt_false (a b : R) : double_lt a b = false <-> (b <= a)%R.
Proof.
  unfold double_lt. destruct (Rlt_dec a b); split; intros;
    try discriminate; try lra; auto.
Qed.

(** Decides the comparisons of a goal over concrete reals. *)
Ltac decide_double_lt :=
  repeat match goal with
  | |- context [double_lt ?a ?b] =>
      first [ rewrite (proj2 (double_lt_true a b)) by lra
            | rewrite (proj2 (double_lt_false a b)) by lra ]
  end.

Lemma to_int_small (z : Z) : (- 2 ^ 31 <= z < 2 ^ 31)%Z -> to_int z = z.
Proof.
  intros H. unfold to_int, INT_MIN, INT_range.
  rewrite Z.mod_small; lia.
Qed.

Lemma to_size_t_small (z : Z) : (0 <= z < 2 ^ 64)%Z -> to_size_t z = z.
Proof.
  intros H. unfold to_size_t, SIZE_MAX_plus_1. apply Z.mod_small; lia.
Qed.

(** ** Nearest-point search *)

Lemma sq_dist_cons (x y : R) (xs ys : list R) (px py : R) (j : nat) :
  sq_dist (x :: xs) (y :: ys) px py (S j) = sq_dist xs ys px py j.
Proof. reflexivity. Qed.

(** The state of the scan when it stops: either nothing in the rest of the
    path beat the running minimum, or the first strict minimum of the rest
    did. *)
Lemma find_closest_from_inv (px py : R) :
  forall (xs ys : list R) (k : nat) (cidx : Z) (cdist : R),
    length xs = length ys ->
    (Z.of_nat (k + length xs) < 2 ^ 31)%Z ->
    exists r,
      find_closest_from (Z.of_nat k) xs ys px py cidx cdist = Some r
      /\ ((r = cidx
           /\ forall j, (j < length xs)%nat -> (cdist <= sq_dist xs ys px py j)%R)
          \/ exists m, (m < length xs)%nat
               /\ r = Z.of_nat (k + m)
               /\ (sq_dist xs ys px py m < cdist)%R
               /\ (forall j, (j < length xs)%nat ->
                     (sq_dist xs ys px py m <= sq_dist xs ys px py j)%R)
               /\ (forall j, (j < m)%nat ->
                     (sq_dist xs ys px py m < sq_dist xs ys px py j)%R)).
Proof.
  induction xs as [|x xs IH]; intros [|y ys] k cidx cdist Hlen Hk;
    try discriminate.
  - exists cidx. split; [reflexivity|]. left. split; [reflexivity|].
    simpl. intros j Hj. lia.
  - simpl in Hlen, Hk. injection Hlen as Hlen.
    cbn [find_closest_from].
    set (d0 := ((x - px) * (x - px) + (y - py) * (y - py))%R).
    assert (Hd0 : sq_dist (x :: xs) (y :: ys) px py 0 = d0) by reflexivity.
    replace (Z.of_nat k + 1)%Z with (Z.of_nat (S k)) by lia.
    destruct (double_lt d0 cdist) eqn:Hlt.
    + apply double_lt_true in Hlt.
      rewrite to_int_small by lia.
      destruct (IH ys (S k) (Z.of_nat k) d0 Hlen ltac:(lia))
        as (r & Hr & [[Hrk Hall] | (m & Hm & Hrm & Hmd & Hmin & Hlow)]).
      * exists r. split; [exact Hr|]. right. exists 0%nat.
        rewrite Hd0. repeat split.
        -- simpl. lia.
        -- rewrite Hrk. f_equal. lia.
        -- exact Hlt.
        -- intros [|j] Hj; [rewrite Hd0; lra|].
           rewrite sq_dist_cons. apply Hall. simpl in Hj. lia.
        -- intros j Hj. lia.
      * exists r. split; [exact Hr|]. right. exists (S m).
        rewrite sq_dist_cons. repeat split.
        -- simpl. lia.
        -- rewrite Hrm. f_equal. lia.
        -- lra.
        -- intros [|j] Hj; [rewrite Hd0; lra|].
           rewrite sq_dist_cons. apply Hmin. simpl in Hj. lia.
        -- intros [|j] Hj; [rewrite Hd0; lra|].
           rewrite sq_dist_cons. apply Hlow. lia.
    + apply double_lt_false in Hlt.
      destruct (IH ys (S k) cidx cdist Hlen ltac:(lia))
        as (r & Hr & [[Hrk Hall] | (m & Hm & Hrm & Hmd & Hmin & Hlow)]).
      * exists r. split; [exact Hr|]. left. split; [exact Hrk|].
        intros [|j] Hj; [rewrite Hd0; lra|].
        rewrite sq_dist_cons. apply Hall. simpl in Hj. lia.
      * exists r. split; [exact Hr|]. right. exists (S m).
        rewrite sq_dist_cons. repeat split.
        -- simpl. lia.
        -- rewrite Hrm. f_equal. lia.
        -- exact Hmd.
        -- intros [|j] Hj; [rewrite Hd0; lra|].
           rewrite sq_dist_cons. apply Hmin. simpl in Hj. lia.
        -- intros [|j] Hj; [rewrite Hd0; lra|].
           rewrite sq_dist_cons. apply Hlow. lia.
Qed.

(** With parallel vectors the scan always returns: [-1] or an index. *)
Lemma find_closest_returns (xs ys : list R) (px py : R) :
  length xs = length ys ->
  (Z.of_nat (length xs) < 2 ^ 31)%Z ->
  exists r, find_closest xs ys px py = Some r
            /\ (-1 <= r < Z.of_nat (length xs))%Z.
Proof.
  intros Hlen Hsz.
  destruct (find_closest_from_inv px py xs ys 0 (-1)%Z 999999999%R Hlen Hsz)
    as (r & Hr & [[Hrk _] | (m & Hm & Hrm & _)]);
    exists r; (split; [exact Hr|]); lia.
Qed.

(** Where some path point lies at a squared distance below the initial
    [closest_dist], the scan returns the lowest nearest index. *)
Lemma find_closest_in_range (xs ys : list R) (px py : R) (j : nat) :
  length xs = length ys ->
  (Z.of_nat (length xs) < 2 ^ 31)%Z ->
  (j < length xs)%nat ->
  (sq_dist xs ys px py j < 999999999)%R ->
  exists i, find_closest xs ys px py = Some i
            /\ lowest_nearest xs ys px py i.
Proof.
  intros Hlen Hsz Hj Hnear.
  destruct (find_closest_from_inv px py xs ys 0 (-1)%Z 999999999%R Hlen Hsz)
    as (r & Hr & [[Hrk Hall] | (m & Hm & Hrm & Hmd & Hmin & Hlow)]).
  - specialize (Hall j Hj). lra.
  - exists r. split; [exact Hr|]. subst r. simpl (0 + m)%nat.
    unfold lowest_nearest. rewrite Nat2Z.id. repeat split; try lia; assumption.
Qed.

(** Where every path point lies at a squared distance of 999999999 or
    more, the scan returns its initial [-1]. *)
Lemma find_closest_out_of_range (xs ys : list R) (px py : R) :
  length xs = length ys ->
  (Z.of_nat (length xs) < 2 ^ 31)%Z ->
  (forall j, (j < length xs)%nat -> (999999999 <= sq_dist xs ys px py j)%R) ->
  find_closest xs ys px py = Some (-1)%Z.
Proof.
  intros Hlen Hsz Hfar.
  destruct (find_closest_from_inv px py xs ys 0 (-1)%Z 999999999%R Hlen Hsz)
    as (r & Hr & [[Hrk _] | (m & Hm & _ & Hmd & _)]).
  - rewrite <- Hrk. exact Hr.
  - specialize (Hfar m Hm). lra.
Qed.

(** Claim C1, at the input on which the code departs from it: a path of one
    point 40000 away from the query point.  Its squared distance is not
    below the initial [closest_dist] of 999999999, so [find_closest] returns
    [-1], which is no index of the path. *)
Theorem find_closest_far_point :
  find_closest [40000%R] [0%R] 0%R 0%R = Some (-1)%Z
  /\ ~ lowest_nearest [40000%R] [0%R] 0%R 0%R (-1).
Proof.
  split.
  - unfold find_closest. cbn [find_closest_from].
    assert (H : double_lt ((40000 - 0) * (40000 - 0) + (0 - 0) * (0 - 0))
                  999999999 = false)
      by (apply double_lt_false; lra).
    rewrite H. reflexivity.
  - intros [H _]. lia.
Qed.

(** ** Window extraction *)

Section Window.
Context {hdr : Header}.

(** The unsigned sum the index is taken from is the signed sum modulo
    2^64. *)
Lemma window_sum (closest_idx : Z) (i : nat) :
  size_t_add (to_size_t closest_idx)
    (size_t_mul (Z.of_nat i) (to_size_t STEP_POLY))
  = ((closest_idx + Z.of_nat i * STEP_POLY) mod 2 ^ 64)%Z.
Proof.
  unfold size_t_add, size_t_mul, to_size_t, SIZE_MAX_plus_1.
  rewrite Z.mul_mod_idemp_r by lia.
  rewrite <- Z.add_mod by lia. reflexivity.
Qed.

Lemma window_idx_eq (closest_idx : Z) (i size : nat) :
  (0 < size)%nat -> (Z.of_nat size <= 2 ^ 31)%Z ->
  window_idx closest_idx i size
  = Some (((closest_idx + Z.of_nat i * STEP_POLY) mod 2 ^ 64)
          mod Z.of_nat size)%Z.
Proof.
  intros Hpos Hsz. unfold window_idx.
  destruct (Nat.eqb_spec size 0) as [H0|_]; [lia|].
  rewrite window_sum. f_equal. apply to_int_small.
  pose proof (Z.mod_pos_bound
                ((closest_idx + Z.of_nat i * STEP_POLY) mod 2 ^ 64)
                (Z.of_nat size) ltac:(lia)).
  lia.
Qed.

(** While the back-shifted sum is not negative, the index is the circular
    one. *)
Lemma window_idx_nonneg (closest_idx : Z) (i size : nat) :
  (0 < size)%nat -> (Z.of_nat size <= 2 ^ 31)%Z ->
  (0 <= closest_idx + Z.of_nat i * STEP_POLY < 2 ^ 64)%Z ->
  window_idx closest_idx i size
  = Some ((closest_idx + Z.of_nat i * STEP_POLY) mod Z.of_nat size)%Z.
Proof.
  intros Hpos Hsz Hrange. rewrite window_idx_eq by assumption.
  rewrite (Z.mod_small _ (2 ^ 64)) by lia. reflexivity.
Qed.

(** While it is negative, the index is taken from the sum plus 2^64. *)
Lemma window_idx_negative (closest_idx : Z) (i size : nat) :
  (0 < size)%nat -> (Z.of_nat size <= 2 ^ 31)%Z ->
  (- 2 ^ 64 <= closest_idx + Z.of_nat i * STEP_POLY < 0)%Z ->
  window_idx closest_idx i size
  = Some ((closest_idx + Z.of_nat i * STEP_POLY + 2 ^ 64) mod Z.of_nat size)%Z.
Proof.
  intros Hpos Hsz Hrange. rewrite window_idx_eq by assumption.
  do 2 f_equal.
  rewrite <- (Z.mod_add _ 1 (2 ^ 64)) by lia.
  rewrite (Z.mod_small _ (2 ^ 64)); lia.
Qed.

(** So a negative sum gives the circular index only on a path whose length
    divides 2^64. *)
Lemma window_idx_negative_differs (closest_idx : Z) (i size : nat) :
  (0 < size)%nat -> (Z.of_nat size <= 2 ^ 31)%Z ->
  (- 2 ^ 64 <= closest_idx + Z.of_nat i * STEP_POLY < 0)%Z ->
  (2 ^ 64 mod Z.of_nat size <> 0)%Z ->
  window_idx closest_idx i size
  <> Some ((closest_idx + Z.of_nat i * STEP_POLY) mod Z.of_nat size)%Z.
Proof.
  intros Hpos Hsz Hrange Hdiv.
  rewrite window_idx_negative by assumption.
  set (a := (closest_idx + Z.of_nat i * STEP_POLY)%Z) in *.
  set (n := Z.of_nat size) in *.
  intros Hsome.
  assert (Heq : ((a + 2 ^ 64) mod n = a mod n)%Z) by congruence.
  clear Hsome. apply Hdiv.
  assert (Hn : (0 < n)%Z) by (subst n; lia).
  rewrite (Z.add_mod a (2 ^ 64) n) in Heq by lia.
  pose proof (Z.mod_pos_bound a n Hn) as Ha.
  pose proof (Z.mod_pos_bound (2 ^ 64) n Hn) as Hb.
  destruct (Z_lt_dec (a mod n + 2 ^ 64 mod n) n) as [Hs|Hs].
  - rewrite Z.mod_small in Heq by lia. lia.
  - replace (a mod n + 2 ^ 64 mod n)%Z
      with ((a mod n + 2 ^ 64 mod n - n) + 1 * n)%Z in Heq by lia.
    rewrite Z.mod_add in Heq by lia.
    rewrite Z.mod_small in Heq by lia. lia.
Qed.

(** In particular the car on the first path point, with any back offset
    from 1 up, gets a window that does not start at the circular index,
    unless the path length divides 2^64. *)
Lemma window_start_differs (size : nat) :
  (0 < size)%nat -> (Z.of_nat size <= 2 ^ 31)%Z ->
  (1 <= NUM_STEPS_BACK < 2 ^ 31)%Z ->
  (2 ^ 64 mod Z.of_nat size <> 0)%Z ->
  window_idx (int_sub 0 NUM_STEPS_BACK) 0 size
  <> Some (circular_index 0 NUM_STEPS_BACK STEP_POLY size 0).
Proof.
  intros Hpos Hsz Hback Hdiv. unfold circular_index, int_sub.
  rewrite to_int_small by lia.
  apply window_idx_negative_differs; try assumption.
  simpl (Z.of_nat 0). lia.
Qed.

End Window.

Section WindowExample.
#[local] Existing Instance Example.header.

Lemma example_window_indices :
  window_idx (int_sub 0 NUM_STEPS_BACK) 0 3 = Some 0%Z
  /\ window_idx (int_sub 0 NUM_STEPS_BACK) 1 3 = Some 0%Z
  /\ window_idx (int_sub 0 NUM_STEPS_BACK) 2 3 = Some 1%Z
  /\ window_idx (int_sub 0 NUM_STEPS_BACK) 3 3 = Some 2%Z
  /\ window_idx (int_sub 0 NUM_STEPS_BACK) 4 3 = Some 0%Z.
Proof. vm_compute. repeat split. Qed.

Lemma example_window :
  closest_pts_loop NUM_STEPS_POLY 0 [0; 10; 20]%R [0; 0; 0]%R
    (int_sub 0 NUM_STEPS_BACK) [] []
  = Some ([0; 0; 10; 20; 0]%R, [0; 0; 0; 0; 0]%R).
Proof.
  destruct example_window_indices as (H0 & H1 & H2 & H3 & H4).
  cbn [closest_pts_loop length bind NUM_STEPS_POLY Example.header].
  rewrite H0, H1, H2, H3, H4. reflexivity.
Qed.

(** Claim C2, at an input on which the code departs from it: the car on the
    first point of a three-point path, one step back.  The back-shifted
    index is -1; converted to [size_t] it is 2^64 - 1, whose remainder by 3
    is 0, so the window starts at path point 0 and its points are those of
    indices 0, 0, 1, 2, 0.  The circular index of position 0 is 2. *)
Theorem window_start_not_circular :
  let pts_x := m_pts_x Example.on_path in
  let pts_y := m_pts_y Example.on_path in
  find_closest pts_x pts_y 0%R 0%R = Some 0%Z
  /\ closest_pts_loop NUM_STEPS_POLY 0 pts_x pts_y
       (int_sub 0 NUM_STEPS_BACK) [] []
     = Some ([0; 0; 10; 20; 0]%R, [0; 0; 0; 0; 0]%R)
  /\ circular_index 0 NUM_STEPS_BACK STEP_POLY (length pts_x) 0 = 2%Z
  /\ nth 2 pts_x 0%R = 20%R.
Proof.
  cbn -[find_closest closest_pts_loop circular_index int_sub].
  split; [|split; [|split]].
  - unfold find_closest. cbn [find_closest_from].
    decide_double_lt. reflexivity.
  - exact example_window.
  - reflexivity.
  - reflexivity.
Qed.

End WindowExample.

(** ** Frame transformation and the stability check *)

Lemma firstn_snoc {A : Type} (l : list A) (i : nat) (a : A) :
  nth_error l i = Some a -> firstn (S i) l = firstn i l ++ [a].
Proof.
  revert i. induction l as [|b l IH]; intros [|i] H; try discriminate.
  - injection H as ->. reflexivity.
  - cbn [nth_error] in H. rewrite firstn_cons, (IH i H). reflexivity.
Qed.

Lemma length_local_xs (cxs cys : list R) (px py s c : R) :
  length cxs = length cys -> length (local_xs cxs cys px py s c) = length cxs.
Proof.
  revert cys. induction cxs as [|x cxs IH]; intros [|y cys] H;
    try discriminate; [reflexivity|].
  simpl. f_equal. apply IH. simpl in H. lia.
Qed.

Lemma length_local_ys (cxs cys : list R) (px py s c : R) :
  length cxs = length cys -> length (local_ys cxs cys px py s c) = length cxs.
Proof.
  revert cys. induction cxs as [|x cxs IH]; intros [|y cys] H;
    try discriminate; [reflexivity|].
  simpl. f_equal. apply IH. simpl in H. lia.
Qed.

Lemma nth_error_local_xs (cxs cys : list R) (px py s c : R) (i : nat) (gx gy : R) :
  nth_error cxs i = Some gx -> nth_error cys i = Some gy ->
  nth_error (local_xs cxs cys px py s c) i = Some (x_rot_of gx gy px py s c).
Proof.
  revert cys i. induction cxs as [|x cxs IH]; intros [|y cys] [|i] Hx Hy;
    try discriminate.
  - injection Hx as ->. injection Hy as ->. reflexivity.
  - cbn [nth_error] in Hx, Hy. simpl. apply IH; assumption.
Qed.

Lemma nth_error_local_ys (cxs cys : list R) (px py s c : R) (i : nat) (gx gy : R) :
  nth_error cxs i = Some gx -> nth_error cys i = Some gy ->
  nth_error (local_ys cxs cys px py s c) i = Some (y_rot_of gx gy px py s c).
Proof.
  revert cys i. induction cxs as [|x cxs IH]; intros [|y cys] [|i] Hx Hy;
    try discriminate.
  - injection Hx as ->. injection Hy as ->. reflexivity.
  - cbn [nth_error] in Hx, Hy. simpl. apply IH; assumption.
Qed.

Section Guard.
Context {hdr : Header}.
Variables (cxs cys : list R) (px py s c : R).

Local Abbreviation txs := (local_xs cxs cys px py s c).
Local Abbreviation tys := (local_ys cxs cys px py s c).

(** The loop from index [i] on, entered with the first [i] transformed
    points pushed: it stops at some [m], having pushed the first [m]. *)
Lemma transform_loop_inv :
  forall (n i : nat),
    length cys = length cxs ->
    (n + i = length cxs)%nat ->
    exists (m : nat) (breaking : list Event),
      transform_loop n i cxs cys px py s c (firstn i txs) (firstn i tys)
      = Some (firstn m txs, firstn m tys, breaking)
      /\ (i <= m <= length cxs)%nat
      /\ (forall k, (i <= k < m)%nat -> (POLY_DEGREE < k)%nat ->
            x_delta_too_low (nth k txs 0%R) (nth (k - 1) txs 0%R) = false)
      /\ ((m < length cxs)%nat ->
            (POLY_DEGREE < m)%nat
            /\ x_delta_too_low (nth m txs 0%R) (nth (m - 1) txs 0%R) = true
            /\ breaking = [ROS_WARN (x_delta_too_low_at m)])
      /\ (m = length cxs -> breaking = []).
Proof.
  induction n as [|n IH]; intros i Hlen Hn.
  - exists i, []. split; [reflexivity|].
    repeat split; try lia.
  - assert (Hi : (i < length cxs)%nat) by lia.
    destruct (nth_error cxs i) as [gx|] eqn:Hgx;
      [|apply nth_error_None in Hgx; lia].
    destruct (nth_error cys i) as [gy|] eqn:Hgy;
      [|apply nth_error_None in Hgy; lia].
    pose proof (nth_error_local_xs cxs cys px py s c i gx gy Hgx Hgy) as Htx.
    pose proof (nth_error_local_ys cxs cys px py s c i gx gy Hgx Hgy) as Hty.
    assert (Hnth : nth i txs 0%R = x_rot_of gx gy px py s c)
      by (apply nth_error_nth; exact Htx).
    cbn [transform_loop]. rewrite Hgx, Hgy. cbn [bind].
    destruct (IH (S i) Hlen ltac:(lia))
      as (m & breaking & Hrun & Hm & Hacc & Hbrk & Hfull).
    rewrite (firstn_snoc txs i _ Htx), (firstn_snoc tys i _ Hty) in Hrun.
    destruct (POLY_DEGREE <? i)%nat eqn:Hdeg.
    + apply Nat.ltb_lt in Hdeg.
      assert (Hprev : nth_error (firstn i txs) (i - 1)
                      = Some (nth (i - 1) txs 0%R)).
      { rewrite nth_error_firstn.
        destruct (Nat.ltb_spec (i - 1) i) as [_|Hge]; [|lia].
        apply nth_error_nth'.
        rewrite length_local_xs by lia. lia. }
      rewrite Hprev. cbn [bind].
      destruct (x_delta_too_low (x_rot_of gx gy px py s c)
                  (nth (i - 1) txs 0%R)) eqn:Hlow.
      * exists i, [ROS_WARN (x_delta_too_low_at i)]. split; [reflexivity|].
        repeat split; try lia.
        rewrite Hnth. exact Hlow.
      * exists m, breaking. split; [exact Hrun|].
        repeat split; try lia; try tauto.
        intros k Hk Hdk.
        destruct (Nat.eq_dec k i) as [->|Hne].
        -- rewrite Hnth. exact Hlow.
        -- apply Hacc; lia.
    + apply Nat.ltb_ge in Hdeg. cbn [bind].
      exists m, breaking. split; [exact Hrun|].
      repeat split; try lia; try tauto.
      intros k Hk Hdk. apply Hacc; lia.
Qed.

End Guard.

Section GuardClaims.
Context {hdr : Header}.

Lemma x_delta_too_low_false (xs : list R) (k : nat) :
  x_delta_too_low (nth k xs 0%R) (nth (k - 1) xs 0%R) = false
  <-> (X_DELTA_MIN_VALUE <= x_delta xs k)%R.
Proof. unfold x_delta_too_low, x_delta. apply double_lt_false. Qed.

Lemma x_delta_too_low_true (xs : list R) (k : nat) :
  x_delta_too_low (nth k xs 0%R) (nth (k - 1) xs 0%R) = true
  <-> (x_delta xs k < X_DELTA_MIN_VALUE)%R.
Proof. unfold x_delta_too_low, x_delta. apply double_lt_true. Qed.

(** The whole loop over a window of [NUM_STEPS_POLY] points, in terms of
    the number [m] of points it pushes. *)
Lemma transform_loop_accepts (cxs cys : list R) (px py s c : R) :
  length cxs = NUM_STEPS_POLY ->
  length cys = NUM_STEPS_POLY ->
  exists (m : nat) (breaking : list Event),
    transform_loop NUM_STEPS_POLY 0 cxs cys px py s c [] []
    = Some (firstn m (local_xs cxs cys px py s c),
            firstn m (local_ys cxs cys px py s c), breaking)
    /\ (m <= NUM_STEPS_POLY)%nat
    /\ (forall k, (POLY_DEGREE < k < m)%nat ->
          (X_DELTA_MIN_VALUE <= x_delta (local_xs cxs cys px py s c) k)%R)
    /\ ((m < NUM_STEPS_POLY)%nat ->
          (POLY_DEGREE < m)%nat
          /\ (x_delta (local_xs cxs cys px py s c) m < X_DELTA_MIN_VALUE)%R).
Proof.
  intros Hx Hy.
  destruct (transform_loop_inv cxs cys px py s c NUM_STEPS_POLY 0
              ltac:(congruence) ltac:(lia))
    as (m & breaking & Hrun & Hm & Hacc & Hbrk & _).
  cbn [firstn] in Hrun.
  exists m, breaking. split; [exact Hrun|].
  split; [lia|]. split.
  - intros k Hk. apply x_delta_too_low_false. apply Hacc; lia.
  - intros Hlt. destruct (Hbrk ltac:(lia)) as (Hd & Hlow & _).
    split; [exact Hd|]. apply x_delta_too_low_true. exact Hlow.
Qed.

(** Claim C3.  Over a window of [NUM_STEPS_POLY] transformed points the
    loop pushes a prefix of it, of some length [m] (truncation, no point
    after the first rejected one): the first [POLY_DEGREE + 1] positions
    are in it unconditionally; a later position [k] is in it exactly when
    the position before it is and its x exceeds that one's by at least
    [X_DELTA_MIN_VALUE]; so when the first x-delta below the threshold is
    at position [k], exactly [k] points are pushed, and when there is none
    the whole window is. *)
Theorem stability_guard_truncates (cxs cys : list R) (px py s c : R) :
  length cxs = NUM_STEPS_POLY ->
  length cys = NUM_STEPS_POLY ->
  let txs := local_xs cxs cys px py s c in
  let tys := local_ys cxs cys px py s c in
  exists (m : nat) (breaking : list Event),
    transform_loop NUM_STEPS_POLY 0 cxs cys px py s c [] []
    = Some (firstn m txs, firstn m tys, breaking)
    /\ (m <= NUM_STEPS_POLY)%nat
    /\ (forall k, (k < NUM_STEPS_POLY)%nat -> (k <= POLY_DEGREE)%nat ->
          (k < m)%nat)
    /\ (forall k, (POLY_DEGREE < k < NUM_STEPS_POLY)%nat ->
          ((k < m)%nat
           <-> (k - 1 < m)%nat /\ (X_DELTA_MIN_VALUE <= x_delta txs k)%R))
    /\ (forall k, (POLY_DEGREE < k < NUM_STEPS_POLY)%nat ->
          (x_delta txs k < X_DELTA_MIN_VALUE)%R ->
          (forall j, (POLY_DEGREE < j < k)%nat ->
             (X_DELTA_MIN_VALUE <= x_delta txs j)%R) ->
          m = k)
    /\ ((forall j, (POLY_DEGREE < j < NUM_STEPS_POLY)%nat ->
           (X_DELTA_MIN_VALUE <= x_delta txs j)%R) ->
        m = NUM_STEPS_POLY).
Proof.
  intros Hx Hy txs tys.
  destruct (transform_loop_accepts cxs cys px py s c Hx Hy)
    as (m & breaking & Hrun & Hm & Hacc & Hbrk).
  fold txs in Hrun, Hacc, Hbrk. fold tys in Hrun.
  exists m, breaking. split; [exact Hrun|]. split; [exact Hm|].
  split; [|split; [|split]].
  - intros k Hk Hd.
    destruct (Nat.lt_ge_cases k m) as [Hlt|Hge]; [exact Hlt|].
    destruct (Hbrk ltac:(lia)) as [Hdm _]. lia.
  - intros k Hk. split.
    + intros Hlt. split; [lia|]. apply Hacc. lia.
    + intros [Hprev Hdelta].
      destruct (Nat.lt_ge_cases k m) as [Hlt|Hge]; [exact Hlt|].
      assert (m = k) by lia. subst m.
      destruct (Hbrk ltac:(lia)) as [_ Hlow]. lra.
  - intros k Hk Hlow Hbefore.
    destruct (Nat.lt_trichotomy m k) as [Hlt|[Heq|Hgt]]; [|exact Heq|].
    + destruct (Hbrk ltac:(lia)) as [Hdm Hlowm].
      specialize (Hbefore m ltac:(lia)). lra.
    + specialize (Hacc k ltac:(lia)). lra.
  - intros Hall.
    destruct (Nat.eq_dec m NUM_STEPS_POLY) as [Heq|Hne]; [exact Heq|].
    destruct (Hbrk ltac:(lia)) as [Hdm Hlowm].
    specialize (Hall m ltac:(lia)). lra.
Qed.

End GuardClaims.

(** ** One pass of the loop *)

Lemma polyeval_from_zero (coeffs : list R) (i : nat) :
  polyeval_from (S i) coeffs 0 = 0%R.
Proof.
  revert i. induction coeffs as [|c coeffs IH]; intros i; [reflexivity|].
  cbn [polyeval_from]. rewrite IH. simpl. lra.
Qed.

(** The polynomial at 0 is its constant coefficient. *)
Lemma polyeval_at_zero (c0 : R) (coeffs : list R) :
  polyeval (c0 :: coeffs) 0 = c0.
Proof.
  unfold polyeval. cbn [polyeval_from]. rewrite polyeval_from_zero.
  simpl. lra.
Qed.

(** The sampling loop of the debug block stops on its own test: more fuel
    than [poly_samples_fuel] changes nothing. *)
Lemma poly_samples_enough_fuel (extra : nat) (coeffs vars2 : list R) :
  poly_samples (poly_samples_fuel + extra) coeffs 0 vars2
  = poly_samples poly_samples_fuel coeffs 0 vars2.
Proof.
  unfold poly_samples_fuel.
  replace (12 + extra)%nat with (S (11 + extra)) by lia.
  cbn [poly_samples Nat.add].
  decide_double_lt. reflexivity.
Qed.

Section Cycle.
Context {hdr : Header} {ext : Collaborators}.

Lemma closest_pts_loop_length :
  forall (n i : nat) (pts_x pts_y : list R) (closest_idx : Z)
         (acc_x acc_y cxs cys : list R),
    closest_pts_loop n i pts_x pts_y closest_idx acc_x acc_y = Some (cxs, cys) ->
    length cxs = (length acc_x + n)%nat /\ length cys = (length acc_y + n)%nat.
Proof.
  induction n as [|n IH]; intros i pts_x pts_y closest_idx acc_x acc_y cxs cys H.
  - injection H as <- <-. lia.
  - cbn [closest_pts_loop] in H.
    bind_inv H. bind_inv H. bind_inv H.
    apply IH in H. rewrite !length_app in H. simpl in H. lia.
Qed.

(** On a non-empty path of parallel vectors every pass of the extraction
    reads inside the path. *)
Lemma closest_pts_loop_returns :
  forall (n i : nat) (pts_x pts_y : list R) (closest_idx : Z)
         (acc_x acc_y : list R),
    length pts_x = length pts_y ->
    (0 < length pts_x)%nat ->
    (Z.of_nat (length pts_x) <= 2 ^ 31)%Z ->
    exists cxs cys,
      closest_pts_loop n i pts_x pts_y closest_idx acc_x acc_y = Some (cxs, cys).
Proof.
  induction n as [|n IH]; intros i pts_x pts_y closest_idx acc_x acc_y Hlen Hpos Hsz.
  - eexists _, _. reflexivity.
  - cbn [closest_pts_loop].
    rewrite window_idx_eq by assumption. cbn [bind].
    set (idx := (((closest_idx + Z.of_nat i * STEP_POLY) mod 2 ^ 64)
                 mod Z.of_nat (length pts_x))%Z).
    assert (Hidx : (0 <= idx < Z.of_nat (length pts_x))%Z)
      by (apply Z.mod_pos_bound; lia).
    unfold at_int. rewrite to_size_t_small by lia.
    destruct (nth_error pts_x (Z.to_nat idx)) as [x|] eqn:Hx;
      [|apply nth_error_None in Hx; lia].
    destruct (nth_error pts_y (Z.to_nat idx)) as [y|] eqn:Hy;
      [|apply nth_error_None in Hy; lia].
    cbn [bind]. apply IH; assumption.
Qed.

(** What a pass through the Ready branch computed, step by step. *)
Lemma track_inv (s s' : Node) (v_lat psi_lat pos_x_lat pos_y_lat : R)
  (events : list Event) :
  track s v_lat psi_lat pos_x_lat pos_y_lat = Some (s', events) ->
  exists (closest_idx : Z) (cxs cys xvals yvals : list R)
         (breaking markers : list Event) (c0 c1 c2 c3 : R)
         (vars : list R) (controller : MPC) (steering acceleration : R),
    let coeffs := polyfit xvals yvals POLY_DEGREE in
    let state := [0%R; 0%R; 0%R; v_lat; polyeval coeffs 0; (- atan c1)%R] in
    find_closest (m_pts_x s) (m_pts_y s) pos_x_lat pos_y_lat = Some closest_idx
    /\ closest_pts_loop NUM_STEPS_POLY 0 (m_pts_x s) (m_pts_y s)
         (int_sub closest_idx NUM_STEPS_BACK) [] [] = Some (cxs, cys)
    /\ transform_loop NUM_STEPS_POLY 0 cxs cys pos_x_lat pos_y_lat
         (sin psi_lat) (cos psi_lat) [] [] = Some (xvals, yvals, breaking)
    /\ nth_error coeffs 0 = Some c0
    /\ nth_error coeffs 1 = Some c1
    /\ nth_error coeffs 2 = Some c2
    /\ nth_error coeffs 3 = Some c3
    /\ Solve (m_controller s) state coeffs = (vars, controller)
    /\ nth_error vars 0 = Some steering
    /\ nth_error vars 1 = Some acceleration
    /\ (if m_debug s
        then debug_markers xvals yvals coeffs vars pos_x_lat pos_y_lat
               (sin psi_lat) (cos psi_lat) = Some markers
        else markers = [])
    /\ s' = set_steer (CENTER_IN_DZIK - steering) controller s
    /\ events
       = breaking
         ++ [call_polyfit xvals yvals POLY_DEGREE;
             ROS_WARN (coeffs_are c0 c1 c2 c3);
             ROS_WARN (cte_epsi_psi (polyeval coeffs 0) (- atan c1) (m_psi s));
             call_Solve state coeffs vars;
             ROS_WARN (steer_throttle steering acceleration);
             publish_Float32 mpc_angle (CENTER_IN_DZIK - steering)]
         ++ markers
         ++ [ROS_WARN callback_timing].
Proof.
  unfold track. intros H.
  bind_inv H. bind_inv H. destruct p as [cxs cys].
  bind_inv H. destruct p as [[xvals yvals] breaking].
  bind_inv H. bind_inv H. bind_inv H. bind_inv H.
  destruct (Solve _ _ _) as [vars controller] eqn:Hsolve.
  bind_inv H. bind_inv H. bind_inv H.
  injection H as <- <-.
  exists z, cxs, cys, xvals, yvals, breaking, l, r, r0, r1, r2,
    vars, controller, r3, r4.
  cbv zeta. repeat (split; [assumption || reflexivity|]).
  split; [|split; reflexivity].
  destruct (m_debug s); [assumption|congruence].
Qed.

End Cycle.

Section CycleReturns.
Context {hdr : Header} {ext : Collaborators}.

(** With the debug block off, a pass through the Ready branch returns
    whenever the path is a non-empty pair of parallel vectors, the fitter
    answers at least the four coefficients the log line prints, and the
    solver at least the two actuator values. *)
Lemma track_returns (s : Node) (v_lat psi_lat pos_x_lat pos_y_lat : R) :
  length (m_pts_x s) = length (m_pts_y s) ->
  (0 < length (m_pts_x s))%nat ->
  (Z.of_nat (length (m_pts_x s)) < 2 ^ 31)%Z ->
  (forall xs ys, (4 <= length (polyfit xs ys POLY_DEGREE))%nat) ->
  (forall c st co, (2 <= length (fst (Solve c st co)))%nat) ->
  m_debug s = false ->
  exists s' events,
    track s v_lat psi_lat pos_x_lat pos_y_lat = Some (s', events).
Proof.
  intros Hlen Hpos Hsz Hfit Hsolve Hdebug. unfold track.
  destruct (find_closest_returns (m_pts_x s) (m_pts_y s) pos_x_lat pos_y_lat
              Hlen Hsz) as (closest & -> & _).
  cbn [bind].
  destruct (closest_pts_loop_returns NUM_STEPS_POLY 0 (m_pts_x s) (m_pts_y s)
              (int_sub closest NUM_STEPS_BACK) [] [] Hlen Hpos ltac:(lia))
    as (cxs & cys & Hwin).
  rewrite Hwin. cbn [bind].
  destruct (closest_pts_loop_length _ _ _ _ _ _ _ _ _ Hwin) as [Hcx Hcy].
  simpl in Hcx, Hcy.
  destruct (transform_loop_accepts cxs cys pos_x_lat pos_y_lat
              (sin psi_lat) (cos psi_lat) Hcx Hcy)
    as (m & breaking & -> & _).
  cbn [bind].
  set (xvals := firstn m _). set (yvals := firstn m _).
  specialize (Hfit xvals yvals).
  destruct (polyfit xvals yvals POLY_DEGREE)
    as [|c0 [|c1 [|c2 [|c3 rest]]]] eqn:Hcoeffs;
    simpl in Hfit; try lia.
  cbn [nth_error bind].
  match goal with
  | |- context [Solve ?c ?st ?co] =>
      specialize (Hsolve c st co); destruct (Solve c st co) as [vars controller]
  end.
  destruct vars as [|steering [|acceleration rest']];
    simpl in Hsolve; try lia.
  cbn [nth_error bind]. rewrite Hdebug. cbn [bind].
  eexists _, _. reflexivity.
Qed.

Lemma loop_body_returns (s : Node) :
  ready s = true ->
  length (m_pts_x s) = length (m_pts_y s) ->
  (0 < length (m_pts_x s))%nat ->
  (Z.of_nat (length (m_pts_x s)) < 2 ^ 31)%Z ->
  (forall xs ys, (4 <= length (polyfit xs ys POLY_DEGREE))%nat) ->
  (forall c st co, (2 <= length (fst (Solve c st co)))%nat) ->
  m_debug s = false ->
  exists s' events, loop_body s = Some (s', events).
Proof.
  intros Hready. unfold loop_body. unfold ready in Hready. rewrite Hready.
  cbv zeta. apply track_returns.
Qed.

End CycleReturns.

(** ** Latency compensation *)

Section LatencyClaim.
Context {hdr : Header} {ext : Collaborators}.

(** Claim C4.  With all four inputs ready, a pass of the loop runs the rest
    of the pipeline on the state that one explicit Euler step of the
    bicycle model gives from the stored position, heading and speed, the
    last steering [m_steer] as delta, the last throttle [m_throttle] as a,
    the latency and [Lf]: v' first, then psi' from v', then x' and y' from
    v' and psi'.  The fourth entry of the state handed to the solver is
    v'. *)
Theorem latency_compensation_is_euler_step (s : Node) :
  ready s = true ->
  let '(x', y', psi', v') :=
    bicycle_euler_step (m_pos_x s) (m_pos_y s) (m_psi s) (m_speed s)
      (m_steer s) (m_throttle s) (m_latency s) Lf in
  v' = (m_speed s + m_latency s * m_throttle s)%R
  /\ psi' = (m_psi s - m_latency s * (v' * m_steer s / Lf))%R
  /\ x' = (m_pos_x s + m_latency s * (v' * cos psi'))%R
  /\ y' = (m_pos_y s + m_latency s * (v' * sin psi'))%R
  /\ loop_body s = track s v' psi' x' y'
  /\ forall s' events,
       loop_body s = Some (s', events) ->
       exists cte epsi coeffs vars,
         In (call_Solve [0%R; 0%R; 0%R; v'; cte; epsi] coeffs vars) events.
Proof.
  intros Hready. unfold bicycle_euler_step. cbv zeta.
  repeat (split; [reflexivity|]).
  unfold ready in Hready. unfold loop_body. rewrite Hready. cbv zeta.
  split; [reflexivity|].
  intros s' events Hrun. apply track_inv in Hrun.
  destruct Hrun as (closest & cxs & cys & xvals & yvals & breaking & markers
                    & c0 & c1 & c2 & c3 & vars & controller & steering & acc
                    & Hrun).
  cbv zeta in Hrun.
  destruct Hrun as (_ & _ & _ & _ & _ & _ & _ & _ & _ & _ & _ & _ & ->).
  eexists _, _, _, _.
  apply in_or_app. right. apply in_or_app. left.
  simpl. right. right. right. left. reflexivity.
Qed.

End LatencyClaim.

(** ** Error extraction and the fitter's input *)

Section FitClaims.
Context {hdr : Header} {ext : Collaborators}.

Lemma ready_loop_body (s : Node) :
  ready s = true ->
  exists v_lat psi_lat pos_x_lat pos_y_lat,
    loop_body s = track s v_lat psi_lat pos_x_lat pos_y_lat.
Proof.
  intros Hready. unfold loop_body. unfold ready in Hready. rewrite Hready.
  eexists _, _, _, _. reflexivity.
Qed.

(** Claim C5.  In a pass through the Ready branch, with [c0 :: c1 :: _] the
    coefficients the fitter returned, the cross-track error logged and
    handed to the solver is [c0] and the heading error is [- atan c1]; for
    [c0 = 0] and [c1 = 0] both are 0. *)
Theorem error_extraction (s s' : Node) (events : list Event) :
  ready s = true ->
  loop_body s = Some (s', events) ->
  exists (xvals yvals : list R) (c0 c1 : R) (higher : list R)
         (v_lat : R) (vars : list R),
    In (call_polyfit xvals yvals POLY_DEGREE) events
    /\ polyfit xvals yvals POLY_DEGREE = c0 :: c1 :: higher
    /\ polyeval (c0 :: c1 :: higher) 0 = c0
    /\ In (ROS_WARN (cte_epsi_psi c0 (- atan c1) (m_psi s))) events
    /\ In (call_Solve [0%R; 0%R; 0%R; v_lat; c0; (- atan c1)%R]
             (c0 :: c1 :: higher) vars) events
    /\ (c0 = 0%R -> c1 = 0%R ->
        In (call_Solve [0%R; 0%R; 0%R; v_lat; 0%R; 0%R]
              (c0 :: c1 :: higher) vars) events).
Proof.
  intros Hready Hrun.
  destruct (ready_loop_body s Hready) as (v & psi & x & y & Hbody).
  rewrite Hbody in Hrun. apply track_inv in Hrun.
  destruct Hrun as (closest & cxs & cys & xvals & yvals & breaking & markers
                    & c0 & c1 & c2 & c3 & vars & controller & steering & acc
                    & Hrun).
  cbv zeta in Hrun.
  destruct Hrun as (_ & _ & _ & H0 & H1 & _ & _ & _ & _ & _ & _ & _ & ->).
  destruct (polyfit xvals yvals POLY_DEGREE) as [|d0 [|d1 higher]] eqn:Hfit;
    try discriminate.
  cbn [nth_error] in H0, H1. injection H0 as ->. injection H1 as ->.
  rewrite polyeval_at_zero.
  exists xvals, yvals, c0, c1, higher, v, vars.
  assert (Hsolve :
            In (call_Solve [0%R; 0%R; 0%R; v; c0; (- atan c1)%R]
                  (c0 :: c1 :: higher) vars)
              (breaking ++
               [call_polyfit xvals yvals POLY_DEGREE;
                ROS_WARN (coeffs_are c0 c1 c2 c3);
                ROS_WARN (cte_epsi_psi c0 (- atan c1) (m_psi s));
                call_Solve [0%R; 0%R; 0%R; v; c0; (- atan c1)%R]
                  (c0 :: c1 :: higher) vars;
                ROS_WARN (steer_throttle steering acc);
                publish_Float32 mpc_angle (CENTER_IN_DZIK - steering)] ++
               markers ++ [ROS_WARN callback_timing])).
  { apply in_or_app. right. apply in_or_app. left. simpl. tauto. }
  split; [|split; [|split; [|split; [|split]]]].
  - apply in_or_app. right. apply in_or_app. left. simpl. tauto.
  - exact Hfit.
  - apply polyeval_at_zero.
  - apply in_or_app. right. apply in_or_app. left. simpl. tauto.
  - exact Hsolve.
  - intros -> ->. rewrite atan_0, Ropp_0 in Hsolve |- *. exact Hsolve.
Qed.

(** Claim C10.  In a pass through the Ready branch the fitter is called
    with as many x as y values, at least [min NUM_STEPS_POLY
    (POLY_DEGREE + 1)] of them; with a window longer than the degree that
    is at least [POLY_DEGREE + 1] sample points. *)
Theorem polyfit_gets_enough_points (s s' : Node) (events : list Event) :
  ready s = true ->
  loop_body s = Some (s', events) ->
  exists (xvals yvals : list R),
    In (call_polyfit xvals yvals POLY_DEGREE) events
    /\ length yvals = length xvals
    /\ (Nat.min NUM_STEPS_POLY (POLY_DEGREE + 1) <= length xvals)%nat
    /\ ((POLY_DEGREE < NUM_STEPS_POLY)%nat ->
        (POLY_DEGREE + 1 <= length xvals)%nat).
Proof.
  intros Hready Hrun.
  destruct (ready_loop_body s Hready) as (v & psi & x & y & Hbody).
  rewrite Hbody in Hrun. apply track_inv in Hrun.
  destruct Hrun as (closest & cxs & cys & xvals & yvals & breaking & markers
                    & c0 & c1 & c2 & c3 & vars & controller & steering & acc
                    & Hrun).
  cbv zeta in Hrun.
  destruct Hrun as (_ & Hwin & Hloop & _ & _ & _ & _ & _ & _ & _ & _ & _ & ->).
  destruct (closest_pts_loop_length _ _ _ _ _ _ _ _ _ Hwin) as [Hcx Hcy].
  simpl in Hcx, Hcy.
  destruct (transform_loop_accepts cxs cys x y (sin psi) (cos psi) Hcx Hcy)
    as (m & breaking' & Hrun & Hm & _ & Hbrk).
  rewrite Hloop in Hrun. injection Hrun as -> -> _.
  exists (firstn m (local_xs cxs cys x y (sin psi) (cos psi))),
    (firstn m (local_ys cxs cys x y (sin psi) (cos psi))).
  rewrite !length_firstn, length_local_xs, length_local_ys by congruence.
  rewrite Hcx.
  split; [apply in_or_app; right; apply in_or_app; left; simpl; tauto|].
  split; [reflexivity|].
  destruct (Nat.lt_ge_cases m NUM_STEPS_POLY) as [Hlt|Hge].
  - destruct (Hbrk Hlt) as [Hd _]. lia.
  - lia.
Qed.

End FitClaims.

(** ** Readiness and what a pass leaves behind *)

Section Readiness.
Context {hdr : Header} {ext : Collaborators}.

Lemma flags_kept_refl (s : Node) : flags_kept s s.
Proof. unfold flags_kept. tauto. Qed.

Lemma flags_kept_trans (s1 s2 s3 : Node) :
  flags_kept s1 s2 -> flags_kept s2 s3 -> flags_kept s1 s3.
Proof. unfold flags_kept. tauto. Qed.

Lemma flags_kept_ready (s s' : Node) :
  flags_kept s s' -> ready s = true -> ready s' = true.
Proof.
  unfold flags_kept, ready. intros (Hpts & Hspeed & Hpos & Hpsi) H.
  apply andb_prop in H. destruct H as [H H4].
  apply andb_prop in H. destruct H as [H H3].
  apply andb_prop in H. destruct H as [H1 H2].
  rewrite (Hpts H1), (Hspeed H2), (Hpos H3), (Hpsi H4). reflexivity.
Qed.

Lemma deliver_keeps_flags (msg : Message) (s : Node) :
  flags_kept s (deliver msg s).
Proof. destruct msg; unfold flags_kept; simpl; tauto. Qed.

Lemma spinOnce_keeps_flags (msgs : list Message) (s : Node) :
  flags_kept s (spinOnce msgs s).
Proof.
  revert s. induction msgs as [|msg msgs IH]; intros s.
  - apply flags_kept_refl.
  - simpl. eapply flags_kept_trans; [apply deliver_keeps_flags|apply IH].
Qed.

(** The callbacks leave the two actuator members alone. *)
Lemma spinOnce_keeps_actuators (msgs : list Message) (s : Node) :
  m_steer (spinOnce msgs s) = m_steer s
  /\ m_throttle (spinOnce msgs s) = m_throttle s.
Proof.
  revert s. induction msgs as [|msg msgs IH]; intros s; [split; reflexivity|].
  simpl. destruct (IH (deliver msg s)) as [-> ->].
  destruct msg; split; reflexivity.
Qed.

(** A pass of the loop writes [m_steer] and the solver object, nothing
    else. *)
Lemma loop_body_frame (s s' : Node) (events : list Event) :
  loop_body s = Some (s', events) ->
  m_pts_OK s' = m_pts_OK s /\ m_speed_OK s' = m_speed_OK s
  /\ m_pos_OK s' = m_pos_OK s /\ m_psi_OK s' = m_psi_OK s
  /\ m_throttle s' = m_throttle s
  /\ m_pts_x s' = m_pts_x s /\ m_pts_y s' = m_pts_y s
  /\ m_speed s' = m_speed s /\ m_pos_x s' = m_pos_x s
  /\ m_pos_y s' = m_pos_y s /\ m_psi s' = m_psi s
  /\ m_latency s' = m_latency s /\ m_debug s' = m_debug s.
Proof.
  unfold loop_body.
  destruct (m_pts_OK s && m_speed_OK s && m_pos_OK s && m_psi_OK s).
  - cbv zeta. intros H. apply track_inv in H.
    destruct H as (closest & cxs & cys & xvals & yvals & breaking & markers
                   & c0 & c1 & c2 & c3 & vars & controller & steering & acc
                   & H).
    cbv zeta in H.
    destruct H as (_ & _ & _ & _ & _ & _ & _ & _ & _ & _ & _ & -> & _).
    repeat split.
  - intros H. injection H as <- _. repeat split.
Qed.

Lemma loop_body_keeps_flags (s s' : Node) (events : list Event) :
  loop_body s = Some (s', events) -> flags_kept s s'.
Proof.
  intros H. apply loop_body_frame in H.
  destruct H as (H1 & H2 & H3 & H4 & _).
  unfold flags_kept. rewrite H1, H2, H3, H4. tauto.
Qed.

Lemma loop_keeps_flags :
  forall (deliveries : list (list Message)) (s s' : Node) (events : list Event),
    loop deliveries s = Some (s', events) -> flags_kept s s'.
Proof.
  induction deliveries as [|msgs deliveries IH]; intros s s' events H.
  - injection H as <- _. apply flags_kept_refl.
  - cbn [loop] in H. bind_inv H. destruct p as [s1 events1].
    bind_inv H. destruct p as [s2 events2]. injection H as <- _.
    eapply flags_kept_trans; [apply (loop_body_keeps_flags _ _ _ E)|].
    eapply flags_kept_trans; [apply spinOnce_keeps_flags|].
    apply (IH _ _ _ E0).
Qed.

Lemma loop_keeps_throttle :
  forall (deliveries : list (list Message)) (s s' : Node) (events : list Event),
    loop deliveries s = Some (s', events) -> m_throttle s' = m_throttle s.
Proof.
  induction deliveries as [|msgs deliveries IH]; intros s s' events H.
  - injection H as <- _. reflexivity.
  - cbn [loop] in H. bind_inv H. destruct p as [s1 events1].
    bind_inv H. destruct p as [s2 events2]. injection H as <- _.
    rewrite (IH _ _ _ E0).
    rewrite (proj2 (spinOnce_keeps_actuators msgs s1)).
    apply loop_body_frame in E. tauto.
Qed.

Lemma not_ready_loop_body (s : Node) :
  ready s = false ->
  loop_body s
  = Some (s, [ROS_WARN (no_optimization (m_pts_OK s) (m_speed_OK s)
                          (m_pos_OK s) (m_psi_OK s))]).
Proof.
  intros H. unfold loop_body. unfold ready in H. rewrite H. reflexivity.
Qed.

(** Claim C7.  A pass of the loop with some readiness flag false leaves the
    node as it was and does one thing only: the log line that prints the
    four flags; no message is published and neither the fitter nor the
    solver is called.  From construction, and for as long as no message is
    delivered, every pass is such a pass. *)
Theorem awaiting_inputs_skips_cycle :
  (forall s : Node,
     ready s = false ->
     loop_body s
     = Some (s, [ROS_WARN (no_optimization (m_pts_OK s) (m_speed_OK s)
                             (m_pos_OK s) (m_psi_OK s))]))
  /\ (forall (params : Params) (u : Unassigned) (n : nat),
        loop (repeat [] n) (MPCControllerNode params u)
        = Some (MPCControllerNode params u,
                repeat (ROS_WARN (no_optimization false false false false)) n)).
Proof.
  split; [exact not_ready_loop_body|].
  intros params u n. induction n as [|n IH]; [reflexivity|].
  cbn [repeat loop].
  rewrite not_ready_loop_body by reflexivity.
  cbn [bind spinOnce fold_left]. rewrite IH. reflexivity.
Qed.

(** Claim C8.  The constructor clears the four readiness flags; each
    callback sets its own flag or flags; neither a callback nor a pass of
    the loop clears a flag that is set, so over any run of the loop every
    flag that was set is still set, and a node that was ready is ready. *)
Theorem readiness_is_monotonic :
  (forall (params : Params) (u : Unassigned),
     let s := MPCControllerNode params u in
     m_pts_OK s = false /\ m_speed_OK s = false
     /\ m_pos_OK s = false /\ m_psi_OK s = false)
  /\ (forall points s, m_pts_OK (centerline_cb points s) = true)
  /\ (forall v s, m_speed_OK (odom_cb v s) = true)
  /\ (forall x y o s,
        m_pos_OK (pf_pose_odom_cb x y o s) = true
        /\ m_psi_OK (pf_pose_odom_cb x y o s) = true)
  /\ (forall msg s, flags_kept s (deliver msg s))
  /\ (forall s s' events, loop_body s = Some (s', events) -> flags_kept s s')
  /\ (forall deliveries s s' events,
        loop deliveries s = Some (s', events) ->
        flags_kept s s' /\ (ready s = true -> ready s' = true)).
Proof.
  split; [intros params u; cbv zeta; repeat split|].
  split; [reflexivity|]. split; [reflexivity|].
  split; [intros; split; reflexivity|].
  split; [exact deliver_keeps_flags|].
  split; [exact loop_body_keeps_flags|].
  intros deliveries s s' events H.
  pose proof (loop_keeps_flags _ _ _ _ H) as Hk.
  split; [exact Hk|]. apply flags_kept_ready. exact Hk.
Qed.

End Readiness.

(** ** The last commanded values *)

Section LastCommanded.
Context {hdr : Header} {ext : Collaborators}.

(** Claim C6, amended.  A pass through the Ready branch records the
    steering the solver returned after the actuator remapping, as
    [CENTER_IN_DZIK - vars[0]], which is also what it publishes; the
    callbacks of [ros::spinOnce] do not touch it, and the next pass takes
    its Euler step with that value as delta.  The acceleration the solver
    returned is not recorded: [m_throttle] is left as it was, and in any
    run from construction it is 0, so the next pass takes its step with
    a = [m_throttle], unchanged. *)
Theorem last_commanded_values :
  (forall (s s' : Node) (events : list Event) (msgs : list Message),
     ready s = true ->
     loop_body s = Some (s', events) ->
     let next := spinOnce msgs s' in
     exists state coeffs vars steering,
       In (call_Solve state coeffs vars) events
       /\ nth_error vars 0 = Some steering
       /\ In (publish_Float32 mpc_angle (CENTER_IN_DZIK - steering)) events
       /\ m_steer next = (CENTER_IN_DZIK - steering)%R
       /\ m_throttle next = m_throttle s
       /\ ready next = true
       /\ loop_body next
          = let '(x', y', psi', v') :=
              bicycle_euler_step (m_pos_x next) (m_pos_y next) (m_psi next)
                (m_speed next) (CENTER_IN_DZIK - steering) (m_throttle s)
                (m_latency next) Lf in
            track next v' psi' x' y')
  /\ (forall (params : Params) (u : Unassigned)
             (deliveries : list (list Message)) (s : Node)
             (events : list Event),
        loop deliveries (MPCControllerNode params u) = Some (s, events) ->
        m_throttle s = 0%R).
Proof.
  split.
  - intros s s' events msgs Hready Hrun next.
    pose proof (loop_body_keeps_flags _ _ _ Hrun) as Hflags.
    pose proof (loop_body_frame _ _ _ Hrun) as Hframe.
    destruct (ready_loop_body s Hready) as (v & psi & x & y & Hbody).
    rewrite Hbody in Hrun. apply track_inv in Hrun.
    destruct Hrun as (closest & cxs & cys & xvals & yvals & breaking & markers
                      & c0 & c1 & c2 & c3 & vars & controller & steering & acc
                      & Hrun).
    cbv zeta in Hrun.
    destruct Hrun as (_ & _ & _ & _ & _ & _ & _ & _ & Hsteer & _ & _ & Hs' & ->).
    destruct (spinOnce_keeps_actuators msgs s') as [Hst Hth].
    assert (Hnext : ready next = true).
    { apply (flags_kept_ready s); [|exact Hready].
      eapply flags_kept_trans; [exact Hflags|apply spinOnce_keeps_flags]. }
    assert (Hsteer' : m_steer next = (CENTER_IN_DZIK - steering)%R)
      by (subst next; rewrite Hst, Hs'; reflexivity).
    assert (Hthrottle : m_throttle next = m_throttle s)
      by (subst next; rewrite Hth; tauto).
    eexists _, _, vars, steering.
    split; [apply in_or_app; right; apply in_or_app; left; simpl; tauto|].
    split; [exact Hsteer|].
    split; [apply in_or_app; right; apply in_or_app; left; simpl; tauto|].
    split; [exact Hsteer'|]. split; [exact Hthrottle|].
    split; [exact Hnext|].
    unfold loop_body. unfold ready in Hnext. rewrite Hnext.
    unfold bicycle_euler_step. cbv zeta.
    rewrite Hsteer', Hthrottle. reflexivity.
  - intros params u deliveries s events Hrun.
    apply loop_keeps_throttle in Hrun. rewrite Hrun. reflexivity.
Qed.

End LastCommanded.

Section ExampleCycle.
#[local] Existing Instance Example.header.
#[local] Existing Instance Example.collaborators.

Lemma example_ready : ready Example.on_path = true.
Proof. reflexivity. Qed.

Lemma example_fresh_not_ready : ready Example.fresh = false.
Proof. reflexivity. Qed.

Lemma example_psi : m_psi Example.on_path = 0%R.
Proof.
  cbn. unfold atan2. decide_double_lt.
  replace (2 * (1 * 0 + 0 * 0) / (1 - 2 * (0 * 0 + 0 * 0)))%R with 0%R by lra.
  apply atan_0.
Qed.

(** The latency step of the example node: speed 1, heading 0, position
    (0.1, 0). *)
Lemma example_latency_step :
  loop_body Example.on_path = track Example.on_path 1 0 0.1 0.
Proof.
  unfold loop_body.
  change (m_pts_OK Example.on_path && m_speed_OK Example.on_path
          && m_pos_OK Example.on_path && m_psi_OK Example.on_path) with true.
  cbv zeta. cbv iota.
  rewrite example_psi.
  change (m_speed Example.on_path) with 1%R.
  change (m_latency Example.on_path) with 0.1%R.
  change (m_throttle Example.on_path) with 0%R.
  change (m_steer Example.on_path) with 0%R.
  change (m_pos_x Example.on_path) with 0%R.
  change (m_pos_y Example.on_path) with 0%R.
  change Lf with 0.325%R.
  replace (1 + 0.1 * 0)%R with 1%R by lra.
  replace (0 - 0.1 * (1 * 0 / 0.325))%R with 0%R by lra.
  rewrite cos_0, sin_0.
  replace (0 + 0.1 * (1 * 1))%R with 0.1%R by lra.
  replace (0 + 0.1 * (1 * 0))%R with 0%R by lra.
  reflexivity.
Qed.

(** The whole pass of the example node.  The window is path points 0, 0, 1,
    2, 0; the last one lies behind the one before it, so the loop breaks at
    position 4 and the fitter gets four points. *)
Lemma example_pass :
  loop_body Example.on_path = Some (Example.after_pass, Example.pass_events).
Proof.
  rewrite example_latency_step. unfold track.
  change (m_pts_x Example.on_path) with [0; 10; 20]%R.
  change (m_pts_y Example.on_path) with [0; 0; 0]%R.
  unfold find_closest. cbn [find_closest_from]. decide_double_lt.
  cbn [bind]. change (to_int 0) with 0%Z.
  rewrite example_window. cbn [bind].
  rewrite sin_0, cos_0.
  cbn [transform_loop NUM_STEPS_POLY POLY_DEGREE Example.header nth_error bind
         Nat.ltb Nat.leb Nat.sub app].
  unfold x_delta_too_low, x_rot_of, y_rot_of.
  cbn [X_DELTA_MIN_VALUE Example.header].
  decide_double_lt.
  cbn [polyfit Example.collaborators nth_error bind Solve].
  rewrite example_psi, polyeval_at_zero, atan_0, Ropp_0.
  change (m_debug Example.on_path) with false.
  cbn [bind app CENTER_IN_DZIK Example.header].
  unfold Example.after_pass, Example.pass_events.
  repeat f_equal; lra.
Qed.

(** Claim C6 as stated fails on the example node: the solver returns
    steering 0.25 and acceleration 1; after the pass [m_throttle] is 0, not
    1, and [m_steer] is [CENTER_IN_DZIK - 0.25 = 0 - 0.25], not 0.25. *)
Lemma solver_output_not_recorded :
  loop_body Example.on_path = Some (Example.after_pass, Example.pass_events)
  /\ In (call_Solve [0; 0; 0; 1; 0; 0]%R [0; 0; 0; 0]%R [0.25; 1]%R)
       Example.pass_events
  /\ m_throttle Example.after_pass = 0%R
  /\ m_steer Example.after_pass = (0 - 0.25)%R
  /\ ~ records_solver_output Example.after_pass Example.pass_events.
Proof.
  assert (Hin : In (call_Solve [0; 0; 0; 1; 0; 0]%R [0; 0; 0; 0]%R [0.25; 1]%R)
                  Example.pass_events)
    by (unfold Example.pass_events; simpl; tauto).
  split; [exact example_pass|]. split; [exact Hin|].
  split; [reflexivity|]. split; [reflexivity|].
  intros Hrec. destruct (Hrec _ _ _ Hin) as [_ Hacc].
  cbn in Hacc. injection Hacc as Hacc. lra.
Qed.

End ExampleCycle.

(** ** Start-up *)

Section Startup.
Context {libc : Libc}.

Lemma main_too_few (argv : list string) :
  (length argv < 12)%nat -> main argv = returns 1 [too_few_arguments].
Proof.
  intros H. unfold main.
  destruct (Nat.eqb_spec (length argv) 12) as [He|_]; [lia|].
  destruct (Nat.ltb_spec 12 (length argv)) as [Hl|_]; [lia|]. reflexivity.
Qed.

Lemma main_too_many (argv : list string) :
  (12 < length argv)%nat -> main argv = returns 1 [too_many_arguments].
Proof.
  intros H. unfold main.
  destruct (Nat.eqb_spec (length argv) 12) as [He|_]; [lia|].
  destruct (Nat.ltb_spec 12 (length argv)) as [_|Hl]; [|lia]. reflexivity.
Qed.

Lemma main_bad_debug (argv : list string) :
  length argv = 12%nat ->
  well_formed_toggle (argv_at argv 11) = false ->
  main argv = returns 1 [bad_debug_argument (argv_at argv 11)].
Proof.
  intros Hlen Htoggle. unfold main. rewrite Hlen. cbn [Nat.eqb].
  unfold well_formed_toggle in Htoggle.
  apply orb_false_elim in Htoggle. destruct Htoggle as [-> ->].
  reflexivity.
Qed.

Lemma main_enters_loop (argv : list string) :
  length argv = 12%nat ->
  well_formed_toggle (argv_at argv 11) = true ->
  exists params out,
    main argv = enters_loop params out
    /\ steps_ahead params = atoi (argv_at argv 1)
    /\ latency params = atof (argv_at argv 3)
    /\ debug params = String.eqb (argv_at argv 11) "true".
Proof.
  intros Hlen Htoggle. unfold main. rewrite Hlen. cbn [Nat.eqb].
  unfold well_formed_toggle in Htoggle.
  destruct (String.eqb (argv_at argv 11) "true") eqn:Htrue.
  - unfold start. eexists _, _. split; [reflexivity|]. repeat split.
  - cbn [orb] in Htoggle. rewrite Htoggle.
    unfold start. eexists _, _. split; [reflexivity|]. repeat split.
Qed.

(** Claim C9, amended.  [main] returns 1 with one line of diagnostic,
    before the node is built, exactly when the argument count is not 12
    (too few or too many values) or the debug toggle is neither "true" nor
    "false"; otherwise it enters the loop, with the numeric values as
    [atoi] and [atof] convert them, whatever their text.  So a vector in
    which every value is present and well-formed enters the loop, and one
    with a missing value or a malformed toggle does not. *)
Theorem startup_checks (argv : list string) :
  ((length argv < 12)%nat -> main argv = returns 1 [too_few_arguments])
  /\ ((12 < length argv)%nat -> main argv = returns 1 [too_many_arguments])
  /\ (length argv = 12%nat ->
      well_formed_toggle (argv_at argv 11) = false ->
      main argv = returns 1 [bad_debug_argument (argv_at argv 11)])
  /\ (length argv = 12%nat ->
      well_formed_toggle (argv_at argv 11) = true ->
      exists params out,
        main argv = enters_loop params out
        /\ steps_ahead params = atoi (argv_at argv 1)
        /\ latency params = atof (argv_at argv 3)
        /\ debug params = String.eqb (argv_at argv 11) "true")
  /\ ((exists params out, main argv = enters_loop params out)
      <-> length argv = 12%nat
          /\ well_formed_toggle (argv_at argv 11) = true)
  /\ (well_formed_config argv = true ->
      exists params out, main argv = enters_loop params out).
Proof.
  split; [apply main_too_few|]. split; [apply main_too_many|].
  split; [apply main_bad_debug|]. split; [apply main_enters_loop|].
  assert (Hiff : (exists params out, main argv = enters_loop params out)
                 <-> length argv = 12%nat
                     /\ well_formed_toggle (argv_at argv 11) = true).
  { split.
    - intros (params & out & Hmain).
      destruct (Nat.lt_trichotomy (length argv) 12) as [Hlt|[Heq|Hgt]].
      + rewrite main_too_few in Hmain by exact Hlt. discriminate.
      + split; [exact Heq|].
        destruct (well_formed_toggle (argv_at argv 11)) eqn:Ht; [reflexivity|].
        rewrite main_bad_debug in Hmain by assumption. discriminate.
      + rewrite main_too_many in Hmain by exact Hgt. discriminate.
    - intros [Hlen Ht].
      destruct (main_enters_loop argv Hlen Ht) as (params & out & Hmain & _).
      exists params, out. exact Hmain. }
  split; [exact Hiff|].
  intros Hwf. apply Hiff. unfold well_formed_config in Hwf.
  apply andb_prop in Hwf. destruct Hwf as [Hwf Ht].
  apply andb_prop in Hwf. destruct Hwf as [Hlen _].
  apply Nat.eqb_eq in Hlen. split; assumption.
Qed.

End Startup.

(** Claim C9 as stated fails on an argument vector whose horizon length is
    the text "abc": the value is malformed, and [main] enters the loop all
    the same, whatever [atoi] makes of it; with the decimal conversions the
    horizon is 0. *)
Lemma malformed_number_enters_loop :
  well_formed_config Example.argv_abc = false
  /\ (forall libc : Libc,
        exists params out, main Example.argv_abc = enters_loop params out)
  /\ exists params out,
       main (libc := Example.libc) Example.argv_abc = enters_loop params out
       /\ steps_ahead params = 0%Z.
Proof.
  split; [reflexivity|]. split.
  - intros libc. unfold main. cbn. unfold start. eexists _, _. reflexivity.
  - unfold main. cbn -[decimal_atof decimal_atoi]. unfold start.
    eexists _, _. split; reflexivity.
Qed.

(** ** Further properties of the pipeline *)

(** The rotation and translation [get_marker] applies to a pair is the
    inverse of the frame transformation: a window point taken to the car's
    frame and back is the point itself. *)
Lemma frame_transform_round_trip (gx gy pos_x_lat pos_y_lat psi_lat : R) :
  marker_points
    [x_rot_of gx gy pos_x_lat pos_y_lat (sin psi_lat) (cos psi_lat);
     y_rot_of gx gy pos_x_lat pos_y_lat (sin psi_lat) (cos psi_lat)]
    pos_x_lat pos_y_lat (sin psi_lat) (cos psi_lat)
  = Some [{| point_x := gx; point_y := gy |}].
Proof.
  cbn [marker_points bind]. unfold x_rot_of, y_rot_of.
  pose proof (sin2_cos2 psi_lat) as H. unfold Rsqr in H.
  set (sn := sin psi_lat) in *. set (cs := cos psi_lat) in *.
  do 2 f_equal. f_equal.
  - replace (((gx - pos_x_lat) * cs + (gy - pos_y_lat) * sn) * cs
             - (- (gx - pos_x_lat) * sn + (gy - pos_y_lat) * cs) * sn
             + pos_x_lat)%R
      with ((gx - pos_x_lat) * (sn * sn + cs * cs) + pos_x_lat)%R by ring.
    rewrite H. ring.
  - replace (((gx - pos_x_lat) * cs + (gy - pos_y_lat) * sn) * sn
             + (- (gx - pos_x_lat) * sn + (gy - pos_y_lat) * cs) * cs
             + pos_y_lat)%R
      with ((gy - pos_y_lat) * (sn * sn + cs * cs) + pos_y_lat)%R by ring.
    rewrite H. ring.
Qed.

Section Throttle.
Context {hdr : Header} {ext : Collaborators}.

Lemma debug_markers_publish_markers
  (xvals yvals coeffs vars : list R) (px py s c : R) (markers : list Event) :
  debug_markers xvals yvals coeffs vars px py s c = Some markers ->
  forall e, In e markers -> is_throttle_publication e = false.
Proof.
  unfold debug_markers. intros H.
  bind_inv H. bind_inv H. bind_inv H. bind_inv H.
  injection H as <-. intros e He. simpl in He.
  destruct He as [<-|[<-|[<-|[]]]]; reflexivity.
Qed.

Lemma transform_loop_warns :
  forall (n i : nat) (cxs cys : list R) (px py s c : R)
         (xv yv xvals yvals : list R) (breaking : list Event),
    transform_loop n i cxs cys px py s c xv yv = Some (xvals, yvals, breaking) ->
    forall e, In e breaking -> is_throttle_publication e = false.
Proof.
  induction n as [|n IH]; intros i cxs cys px py s c xv yv xvals yvals breaking H.
  - injection H as _ _ <-. intros e [].
  - cbn [transform_loop] in H.
    bind_inv H. bind_inv H. bind_inv H.
    destruct b.
    + injection H as _ _ <-. intros e [<-|[]]. reflexivity.
    + eapply IH. exact H.
Qed.

(** No pass of the loop publishes on the throttle topic. *)
Lemma throttle_never_published (s s' : Node) (events : list Event) :
  loop_body s = Some (s', events) ->
  forall e, In e events -> is_throttle_publication e = false.
Proof.
  unfold loop_body.
  destruct (m_pts_OK s && m_speed_OK s && m_pos_OK s && m_psi_OK s).
  - cbv zeta. intros H. apply track_inv in H.
    destruct H as (closest & cxs & cys & xvals & yvals & breaking & markers
                   & c0 & c1 & c2 & c3 & vars & controller & steering & acc
                   & H).
    cbv zeta in H.
    destruct H as (_ & _ & Hloop & _ & _ & _ & _ & _ & _ & _ & Hmarkers & _ & ->).
    intros e He.
    apply in_app_or in He. destruct He as [He|He].
    { eapply transform_loop_warns; eassumption. }
    apply in_app_or in He. destruct He as [He|He].
    { simpl in He.
      destruct He as [<-|[<-|[<-|[<-|[<-|[<-|[]]]]]]]; reflexivity. }
    apply in_app_or in He. destruct He as [He|He].
    { destruct (m_debug s).
      - eapply debug_markers_publish_markers; eassumption.
      - subst markers. destruct He. }
    simpl in He. destruct He as [<-|[]]. reflexivity.
  - intros H. injection H as _ <-. intros e [<-|[]]. reflexivity.
Qed.

End Throttle.

(** ** The theorems on the example configuration *)

Section OnExample.
#[local] Existing Instance Example.header.
#[local] Existing Instance Example.collaborators.
#[local] Existing Instance Example.libc.

(** Claim C3 on five window points one unit apart along the heading: every
    x-delta is 1, above the threshold, and the whole window is pushed. *)
Lemma stability_guard_on_straight_window :
  let cxs := [0; 1; 2; 3; 4]%R in
  let cys := [0; 0; 0; 0; 0]%R in
  length cxs = NUM_STEPS_POLY
  /\ length cys = NUM_STEPS_POLY
  /\ exists breaking,
       transform_loop NUM_STEPS_POLY 0 cxs cys 0 0 0 1 [] []
       = Some (local_xs cxs cys 0 0 0 1, local_ys cxs cys 0 0 0 1, breaking).
Proof.
  intros cxs cys.
  split; [reflexivity|]. split; [reflexivity|].
  destruct (stability_guard_truncates (hdr := Example.header)
              cxs cys 0 0 0 1 eq_refl eq_refl)
    as (m & breaking & Hrun & _ & _ & _ & _ & Hall).
  assert (Hm : m = 5%nat).
  { apply Hall. intros j Hj. cbn in Hj.
    assert (Hj4 : j = 4%nat) by lia. subst j.
    unfold x_delta. cbn. unfold x_rot_of. lra. }
  subst m. exists breaking. exact Hrun.
Defined.

(** Claim C4 on the example node, which is ready. *)
Lemma latency_compensation_on_example :
  ready Example.on_path = true
  /\ exists x' y' psi' v',
       bicycle_euler_step (m_pos_x Example.on_path) (m_pos_y Example.on_path)
         (m_psi Example.on_path) (m_speed Example.on_path)
         (m_steer Example.on_path) (m_throttle Example.on_path)
         (m_latency Example.on_path) Lf = (x', y', psi', v')
       /\ loop_body Example.on_path = track Example.on_path v' psi' x' y'.
Proof.
  split; [reflexivity|].
  pose proof (latency_compensation_is_euler_step Example.on_path eq_refl) as H.
  destruct (bicycle_euler_step _ _ _ _ _ _ _ _) as [[[x' y'] psi'] v'].
  exists x', y', psi', v'. split; [reflexivity|].
  destruct H as (_ & _ & _ & _ & H & _). exact H.
Defined.

(** Claim C5 on the example node: its fitter answers the zero cubic, so the
    solver is handed a cross-track error and a heading error of 0. *)
Lemma error_extraction_on_example :
  ready Example.on_path = true
  /\ loop_body Example.on_path = Some (Example.after_pass, Example.pass_events)
  /\ exists v_lat vars,
       In (call_Solve [0; 0; 0; v_lat; 0; 0]%R [0; 0; 0; 0]%R vars)
         Example.pass_events.
Proof.
  split; [reflexivity|]. split; [exact example_pass|].
  destruct (error_extraction Example.on_path Example.after_pass
              Example.pass_events eq_refl example_pass)
    as (xvals & yvals & c0 & c1 & higher & v_lat & vars
        & _ & Hfit & _ & _ & _ & Hzero).
  cbn in Hfit. injection Hfit as <- <- <-.
  exists v_lat, vars. apply Hzero; reflexivity.
Defined.

(** Claim C10 on the example node: a window of five for a cubic, so the
    fitter gets at least four points. *)
Lemma polyfit_points_on_example :
  ready Example.on_path = true
  /\ loop_body Example.on_path = Some (Example.after_pass, Example.pass_events)
  /\ exists xvals yvals,
       In (call_polyfit xvals yvals 3) Example.pass_events
       /\ (4 <= length xvals)%nat.
Proof.
  split; [reflexivity|]. split; [exact example_pass|].
  destruct (polyfit_gets_enough_points Example.on_path Example.after_pass
              Example.pass_events eq_refl example_pass)
    as (xvals & yvals & Hin & _ & _ & Hmin).
  exists xvals, yvals. split; [exact Hin|].
  apply Hmin. cbn. lia.
Defined.

(** Claim C6, amended, on the example node: after its pass and a speed
    message the throttle is still 0 and the node still ready. *)
Lemma last_commanded_on_example :
  ready Example.on_path = true
  /\ loop_body Example.on_path = Some (Example.after_pass, Example.pass_events)
  /\ m_throttle (spinOnce [odom 2] Example.after_pass) = 0%R
  /\ ready (spinOnce [odom 2] Example.after_pass) = true.
Proof.
  split; [reflexivity|]. split; [exact example_pass|].
  destruct (proj1 last_commanded_values Example.on_path Example.after_pass
              Example.pass_events [odom 2] eq_refl example_pass)
    as (state & coeffs & vars & steering & _ & _ & _ & _ & Hth & Hready & _).
  split; [exact Hth|exact Hready].
Defined.

(** Claim C7 on the node as constructed. *)
Lemma awaiting_inputs_on_fresh_node :
  ready Example.fresh = false
  /\ loop_body Example.fresh
     = Some (Example.fresh,
             [ROS_WARN (no_optimization false false false false)]).
Proof.
  split; [reflexivity|].
  exact (proj1 awaiting_inputs_skips_cycle Example.fresh eq_refl).
Defined.

(** Claim C8 on the node as constructed and a speed message. *)
Lemma readiness_kept_on_example :
  flags_kept Example.fresh (deliver (odom 1) Example.fresh)
  /\ m_speed_OK (deliver (odom 1) Example.fresh) = true.
Proof.
  destruct readiness_is_monotonic as (_ & _ & Hodom & _ & Hdeliver & _).
  split; [apply Hdeliver|apply Hodom].
Defined.

(** Claim C9, amended, on a vector with no value at all and on a
    well-formed one. *)
Lemma startup_on_example :
  (length ["mpc_node"%string] < 12)%nat
  /\ main ["mpc_node"%string] = returns 1 [too_few_arguments]
  /\ well_formed_config
       ["mpc_node"; "10"; "0.1"; "0.1"; "1"; "1"; "1"; "1"; "1"; "1"; "1";
        "false"]%string = true
  /\ exists params out,
       main ["mpc_node"; "10"; "0.1"; "0.1"; "1"; "1"; "1"; "1"; "1"; "1"; "1";
             "false"]%string = enters_loop params out.
Proof.
  split; [cbn; lia|].
  split; [apply (proj1 (startup_checks ["mpc_node"%string])); cbn; lia|].
  split; [reflexivity|].
  apply (proj2 (proj2 (proj2 (proj2 (proj2 (startup_checks _)))))).
  reflexivity.
Defined.

(** The example node meets what a pass needs to return. *)
Lemma pass_returns_on_example :
  ready Example.on_path = true
  /\ m_debug Example.on_path = false
  /\ exists s' events, loop_body Example.on_path = Some (s', events).
Proof.
  split; [reflexivity|]. split; [reflexivity|].
  apply loop_body_returns.
  - reflexivity.
  - reflexivity.
  - simpl. lia.
  - simpl. lia.
  - intros xs ys. simpl. lia.
  - intros c st co. simpl. lia.
  - reflexivity.
Defined.

(** The nearest-point search on the example path, from the point (1, 0). *)
Lemma find_closest_on_example_path :
  length (m_pts_x Example.on_path) = length (m_pts_y Example.on_path)
  /\ (Z.of_nat (length (m_pts_x Example.on_path)) < 2 ^ 31)%Z
  /\ (sq_dist (m_pts_x Example.on_path) (m_pts_y Example.on_path) 1 0 0
      < 999999999)%R
  /\ exists i,
       find_closest (m_pts_x Example.on_path) (m_pts_y Example.on_path) 1 0
       = Some i
       /\ lowest_nearest (m_pts_x Example.on_path) (m_pts_y Example.on_path)
            1 0 i.
Proof.
  assert (Hlen : length (m_pts_x Example.on_path)
                 = length (m_pts_y Example.on_path)) by reflexivity.
  assert (Hsz : (Z.of_nat (length (m_pts_x Example.on_path)) < 2 ^ 31)%Z)
    by (cbn; lia).
  assert (Hnear : (sq_dist (m_pts_x Example.on_path)
                     (m_pts_y Example.on_path) 1 0 0 < 999999999)%R)
    by (unfold sq_dist; cbn; lra).
  split; [exact Hlen|]. split; [exact Hsz|]. split; [exact Hnear|].
  apply (find_closest_in_range _ _ 1 0 0 Hlen Hsz); [cbn; lia|exact Hnear].
Defined.

(** The nearest-point search on a path of one point 40000 away. *)
Lemma find_closest_on_far_path :
  (forall j, (j < length [40000%R])%nat ->
     (999999999 <= sq_dist [40000%R] [0%R] 0 0 j)%R)
  /\ find_closest [40000%R] [0%R] 0 0 = Some (-1)%Z.
Proof.
  assert (Hfar : forall j, (j < length [40000%R])%nat ->
                   (999999999 <= sq_dist [40000%R] [0%R] 0 0 j)%R).
  { intros j Hj. cbn in Hj. assert (j = 0%nat) by lia. subst j.
    unfold sq_dist. cbn. lra. }
  split; [exact Hfar|].
  apply find_closest_out_of_range; [reflexivity|cbn; lia|exact Hfar].
Defined.

(** The window index with the car nearest to the third path point: back
    one step is index 1. *)
Lemma window_idx_from_second_point :
  (0 <= 1 + Z.of_nat 0 * STEP_POLY < 2 ^ 64)%Z
  /\ window_idx 1 0 3 = Some 1%Z.
Proof.
  split; [cbn; lia|].
  apply (window_idx_nonneg 1 0 3); cbn; lia.
Defined.

(** The window index with the car nearest to the first path point. *)
Lemma window_start_differs_on_example :
  (2 ^ 64 mod Z.of_nat 3 <> 0)%Z
  /\ window_idx (int_sub 0 NUM_STEPS_BACK) 0 3
     <> Some (circular_index 0 NUM_STEPS_BACK STEP_POLY 3 0).
Proof.
  assert (Hdiv : (2 ^ 64 mod Z.of_nat 3 <> 0)%Z) by (cbn; lia).
  split; [exact Hdiv|].
  apply window_start_differs; [lia|cbn; lia|cbn; lia|exact Hdiv].
Defined.

(** The pass of the node as constructed publishes nothing on the throttle
    topic. *)
Lemma no_throttle_on_fresh_node :
  loop_body Example.fresh
  = Some (Example.fresh, [ROS_WARN (no_optimization false false false false)])
  /\ forall e,
       In e [ROS_WARN (no_optimization false false false false)] ->
       is_throttle_publication e = false.
Proof.
  assert (Hrun : loop_body Example.fresh
                 = Some (Example.fresh,
                         [ROS_WARN (no_optimization false false false false)]))
    by reflexivity.
  split; [exact Hrun|].
  exact (throttle_never_published Example.fresh Example.fresh _ Hrun).
Defined.

End OnExample.

(** * More of the node's behaviour *)

(** ** Callbacks and runs of the loop *)

Section Runs.
Context {hdr : Header} {ext : Collaborators}.

(** Two deliveries on one topic leave what the later one alone leaves;
    deliveries on different topics can be swapped. *)
Theorem deliver_order (a b : Message) (s : Node) :
  deliver b (deliver a s)
  = if same_topic a b then deliver b s else deliver a (deliver b s).
Proof. destruct a, b; reflexivity. Qed.

(** A property that the callbacks and a pass of the loop keep is kept by
    every run. *)
Lemma loop_invariant (P : Node -> Prop) :
  (forall msg s, P s -> P (deliver msg s)) ->
  (forall s s' events, loop_body s = Some (s', events) -> P s -> P s') ->
  forall deliveries s s' events,
    loop deliveries s = Some (s', events) -> P s -> P s'.
Proof.
  intros Hdeliver Hbody.
  assert (Hspin : forall msgs s, P s -> P (spinOnce msgs s)).
  { induction msgs as [|msg msgs IH]; intros s Hs; [exact Hs|].
    simpl. apply IH. apply Hdeliver. exact Hs. }
  induction deliveries as [|msgs deliveries IH]; intros s s' events H Hs.
  - injection H as <- _. exact Hs.
  - cbn [loop] in H. bind_inv H. destruct p as [s1 events1].
    bind_inv H. destruct p as [s2 events2]. injection H as <- _.
    apply (IH _ _ _ E0). apply Hspin. apply (Hbody _ _ _ E). exact Hs.
Qed.

Lemma same_inputs_deliver (msg : Message) (s s' : Node) :
  same_inputs s s' -> same_inputs (deliver msg s) (deliver msg s').
Proof.
  unfold same_inputs.
  intros (H1 & H2 & H3 & H4 & H5 & H6 & H7 & H8 & H9 & H10 & H11 & H12 & H13).
  destruct msg; simpl; repeat split; assumption.
Qed.

Lemma same_inputs_spinOnce (msgs : list Message) (s s' : Node) :
  same_inputs s s' -> same_inputs (spinOnce msgs s) (spinOnce msgs s').
Proof.
  revert s s'. induction msgs as [|msg msgs IH]; intros s s' H; [exact H|].
  simpl. apply IH. apply same_inputs_deliver. exact H.
Qed.

Lemma same_inputs_loop_body (s s' : Node) (events : list Event) :
  loop_body s = Some (s', events) -> same_inputs s s'.
Proof.
  intros H. apply loop_body_frame in H. unfold same_inputs.
  destruct H as (H1 & H2 & H3 & H4 & H5 & H6 & H7 & H8 & H9 & H10 & H11
                 & H12 & H13).
  repeat split; congruence.
Qed.

Lemma same_inputs_trans (s1 s2 s3 : Node) :
  same_inputs s1 s2 -> same_inputs s2 s3 -> same_inputs s1 s3.
Proof.
  unfold same_inputs.
  intros (H1 & H2 & H3 & H4 & H5 & H6 & H7 & H8 & H9 & H10 & H11 & H12 & H13)
         (K1 & K2 & K3 & K4 & K5 & K6 & K7 & K8 & K9 & K10 & K11 & K12 & K13).
  repeat split; congruence.
Qed.

(** The passes of the loop do not interfere with the stored inputs: after a
    run, path, pose, speed, readiness flags, latency, debug flag and
    throttle are what the callbacks alone leave when they are handed the
    run's messages in order. *)
Theorem run_inputs_are_deliveries :
  forall (deliveries : list (list Message)) (s s' : Node) (events : list Event),
    loop deliveries s = Some (s', events) ->
    same_inputs (spinOnce (concat deliveries) s) s'.
Proof.
  induction deliveries as [|msgs deliveries IH]; intros s s' events H.
  - injection H as <- _. unfold same_inputs. repeat split.
  - cbn [loop] in H. bind_inv H. destruct p as [s1 events1].
    bind_inv H. destruct p as [s2 events2]. injection H as <- _.
    cbn [concat]. unfold spinOnce at 1. rewrite fold_left_app.
    fold (spinOnce msgs s).
    fold (spinOnce (concat deliveries) (spinOnce msgs s)).
    eapply same_inputs_trans; [|apply (IH _ _ _ E0)].
    apply same_inputs_spinOnce. apply same_inputs_spinOnce.
    apply (same_inputs_loop_body _ _ _ E).
Qed.

(** In every run from construction the two path vectors have the same
    length, so no read of [m_pts_y] at an index of [m_pts_x] is outside
    it. *)
Theorem path_vectors_stay_parallel
  (params : Params) (u : Unassigned) (deliveries : list (list Message))
  (s : Node) (events : list Event) :
  loop deliveries (MPCControllerNode params u) = Some (s, events) ->
  length (m_pts_x s) = length (m_pts_y s).
Proof.
  intros H.
  refine (loop_invariant
            (fun s0 => length (m_pts_x s0) = length (m_pts_y s0))
            _ _ deliveries _ _ _ H _).
  - intros msg s0 Hs0. destruct msg; simpl; [|exact Hs0|exact Hs0].
    rewrite !length_map. reflexivity.
  - intros s0 s1 events0 Hbody Hs0. apply loop_body_frame in Hbody.
    destruct Hbody as (_ & _ & _ & _ & _ & -> & -> & _). exact Hs0.
  - reflexivity.
Qed.

(** A run in which some readiness flag is clear at the start and no
    message of the topic that sets it is delivered: every pass returns and
    logs the missing prerequisites, nothing else. *)
Lemma starved_run (flag : Node -> bool) (kind : Message -> bool) :
  (forall s, flag s = false -> ready s = false) ->
  (forall msg s, kind msg = false -> flag (deliver msg s) = flag s) ->
  forall (deliveries : list (list Message)) (s : Node),
    flag s = false ->
    forallb (fun msg => negb (kind msg)) (concat deliveries) = true ->
    exists s' events,
      loop deliveries s = Some (s', events)
      /\ length events = length deliveries
      /\ forallb is_no_optimization events = true.
Proof.
  intros Hready Hkind.
  assert (Hspin : forall msgs s,
             forallb (fun msg => negb (kind msg)) msgs = true ->
             flag (spinOnce msgs s) = flag s).
  { induction msgs as [|msg msgs IH]; intros s H; [reflexivity|].
    cbn [forallb] in H. apply andb_prop in H. destruct H as [Hm Hrest].
    simpl. rewrite (IH _ Hrest). apply Hkind.
    apply negb_true_iff. exact Hm. }
  induction deliveries as [|msgs deliveries IH]; intros s Hflag Hnone.
  - exists s, []. repeat split.
  - cbn [concat] in Hnone. rewrite forallb_app in Hnone.
    apply andb_prop in Hnone. destruct Hnone as [Hmsgs Hrest].
    cbn [loop]. rewrite (not_ready_loop_body s (Hready s Hflag)).
    cbn [bind].
    destruct (IH (spinOnce msgs s)
                ltac:(rewrite (Hspin _ _ Hmsgs); exact Hflag) Hrest)
      as (s' & events & Hrun & Hlen & Hall).
    rewrite Hrun. cbn [bind]. eexists _, _. split; [reflexivity|].
    split; [simpl; rewrite Hlen; reflexivity|].
    simpl. exact Hall.
Qed.

(** From construction, as long as no path, or no speed, or no pose has been
    delivered, no pass calls the fitter or the solver or publishes: each
    pass logs the missing prerequisites and that is all, whatever else is
    delivered. *)
Theorem no_pass_before_all_inputs
  (params : Params) (u : Unassigned) (deliveries : list (list Message)) :
  forallb (fun msg => negb (is_centerline msg)) (concat deliveries) = true
  \/ forallb (fun msg => negb (is_odom msg)) (concat deliveries) = true
  \/ forallb (fun msg => negb (is_pf_pose_odom msg)) (concat deliveries) = true ->
  exists s events,
    loop deliveries (MPCControllerNode params u) = Some (s, events)
    /\ length events = length deliveries
    /\ forallb is_no_optimization events = true.
Proof.
  intros [H|[H|H]].
  - apply (starved_run m_pts_OK is_centerline); try assumption; try reflexivity.
    + intros s Hs. unfold ready. rewrite Hs. reflexivity.
    + intros [pts|v|x y o] s Hk; try discriminate; reflexivity.
  - apply (starved_run m_speed_OK is_odom); try assumption; try reflexivity.
    + intros s Hs. unfold ready. rewrite Hs.
      destruct (m_pts_OK s); reflexivity.
    + intros [pts|v|x y o] s Hk; try discriminate; reflexivity.
  - apply (starved_run m_pos_OK is_pf_pose_odom); try assumption;
      try reflexivity.
    + intros s Hs. unfold ready. rewrite Hs.
      destruct (m_pts_OK s), (m_speed_OK s); reflexivity.
    + intros [pts|v|x y o] s Hk; try discriminate; reflexivity.
Qed.

End Runs.

(** ** Markers *)

Lemma marker_points_length :
  forall (vs : list R) (px py s c : R) (ps : list Point),
    marker_points vs px py s c = Some ps -> length vs = (2 * length ps)%nat.
Proof.
  fix IH 1. intros [|x [|y vs]] px py s c ps H.
  - injection H as <-. reflexivity.
  - discriminate.
  - cbn [marker_points] in H. bind_inv H. injection H as <-.
    apply IH in E. simpl. rewrite E. lia.
Qed.

Lemma marker_points_returns :
  forall (n : nat) (vs : list R) (px py s c : R),
    length vs = (2 * n)%nat ->
    exists ps, marker_points vs px py s c = Some ps.
Proof.
  induction n as [|n IH]; intros vs px py s c H.
  - destruct vs; [|discriminate]. exists []. reflexivity.
  - destruct vs as [|x [|y vs]]; simpl in H; try lia.
    destruct (IH vs px py s c ltac:(lia)) as (ps & Hps).
    cbn [marker_points]. rewrite Hps. cbn [bind]. eexists. reflexivity.
Qed.

Lemma get_marker_length (vars : list R) (px py s c : R) (ps : list Point) :
  get_marker vars px py s c = Some ps ->
  length vars = (2 + 2 * length ps)%nat.
Proof.
  intros H. unfold get_marker in H.
  destruct (Nat.ltb_spec (length vars) 2) as [Hlt|Hge]; [discriminate|].
  apply marker_points_length in H. rewrite length_skipn in H. lia.
Qed.

Lemma get_marker_returns (vars : list R) (px py s c : R) :
  (2 <= length vars)%nat -> Nat.even (length vars) = true ->
  exists ps, get_marker vars px py s c = Some ps.
Proof.
  intros Hge Heven. unfold get_marker.
  destruct (Nat.ltb_spec (length vars) 2) as [Hlt|_]; [lia|].
  apply Nat.even_spec in Heven. destruct Heven as (k & Hk).
  apply (marker_points_returns (k - 1)).
  rewrite length_skipn. lia.
Qed.

(** [get_marker] returns exactly on a vector of even length from 2 up (the
    two actuator values and whole pairs), and then gives one point per pair
    after the first two values. *)
Theorem get_marker_point_count (vars : list R) (px py s c : R) :
  ((exists ps, get_marker vars px py s c = Some ps)
   <-> (2 <= length vars)%nat /\ Nat.even (length vars) = true)
  /\ (forall ps, get_marker vars px py s c = Some ps ->
        length vars = (2 + 2 * length ps)%nat).
Proof.
  split; [|intros ps; apply get_marker_length]. split.
  - intros (ps & H). apply get_marker_length in H. split; [lia|].
    rewrite H. rewrite Nat.even_add. simpl Nat.even at 1.
    rewrite Nat.even_mul. reflexivity.
  - intros [Hge Heven]. apply get_marker_returns; assumption.
Qed.

Section DebugBlock.
Context {hdr : Header} {ext : Collaborators}.

Lemma interleave_returns :
  forall (xs ys : list R),
    length xs = length ys ->
    exists vs, interleave xs ys = Some vs /\ length vs = (2 * length xs)%nat.
Proof.
  induction xs as [|x xs IH]; intros [|y ys] H; try discriminate.
  - exists []. split; reflexivity.
  - destruct (IH ys ltac:(simpl in H; lia)) as (vs & Hvs & Hlen).
    cbn [interleave]. rewrite Hvs. cbn [bind]. eexists. split; [reflexivity|].
    simpl. rewrite Hlen. lia.
Qed.

(** The 24 values of [vars2]: the two placeholders and eleven samples. *)
Lemma poly_samples_length (coeffs : list R) :
  length (poly_samples poly_samples_fuel coeffs 0 [0%R; 0%R]) = 24%nat.
Proof.
  unfold poly_samples_fuel. cbn [poly_samples]. decide_double_lt.
  reflexivity.
Qed.

Lemma debug_markers_shape
  (xvals yvals coeffs vars : list R) (px py s c : R) (markers : list Event) :
  debug_markers xvals yvals coeffs vars px py s c = Some markers ->
  marker_topics markers = [mpc_closest_cpp; mpc_next_pos_cpp; mpc_poly_cpp]
  /\ count is_Solve_call markers = 0%nat
  /\ count is_polyfit_call markers = 0%nat
  /\ count is_angle_publication markers = 0%nat.
Proof.
  unfold debug_markers. intros H.
  bind_inv H. bind_inv H. bind_inv H. bind_inv H.
  injection H as <-. repeat split.
Qed.

Lemma debug_markers_returns
  (xvals yvals coeffs vars : list R) (px py s c : R) :
  length xvals = length yvals ->
  (1 <= length xvals)%nat ->
  (2 <= length vars)%nat ->
  Nat.even (length vars) = true ->
  exists markers,
    debug_markers xvals yvals coeffs vars px py s c = Some markers.
Proof.
  intros Hlen Hpos Hvars Heven. unfold debug_markers.
  destruct (interleave_returns xvals yvals Hlen) as (closest_vars & -> & Hcv).
  cbn [bind].
  destruct (get_marker_returns closest_vars px py s c ltac:(lia)
              ltac:(rewrite Hcv; rewrite Nat.even_mul; reflexivity))
    as (m1 & ->).
  cbn [bind].
  destruct (get_marker_returns vars px py s c Hvars Heven) as (m2 & ->).
  cbn [bind].
  destruct (get_marker_returns
              (poly_samples poly_samples_fuel coeffs 0 [0%R; 0%R]) px py s c
              ltac:(rewrite poly_samples_length; lia)
              ltac:(rewrite poly_samples_length; reflexivity))
    as (m3 & ->).
  cbn [bind]. eexists. reflexivity.
Qed.

End DebugBlock.

(** ** What a pass through the Ready branch does, counted *)

Lemma count_app (p : Event -> bool) (a b : list Event) :
  count p (a ++ b) = (count p a + count p b)%nat.
Proof. unfold count. rewrite filter_app, length_app. reflexivity. Qed.

Lemma marker_topics_app (a b : list Event) :
  marker_topics (a ++ b) = marker_topics a ++ marker_topics b.
Proof.
  induction a as [|e a IH]; [reflexivity|].
  destruct e; simpl; rewrite IH; reflexivity.
Qed.

Section PassCounts.
Context {hdr : Header} {ext : Collaborators}.

Lemma transform_loop_breaking_shape :
  forall (n i : nat) (cxs cys : list R) (px py s c : R)
         (xv yv xvals yvals : list R) (breaking : list Event),
    transform_loop n i cxs cys px py s c xv yv = Some (xvals, yvals, breaking) ->
    breaking = [] \/ exists k, breaking = [ROS_WARN (x_delta_too_low_at k)].
Proof.
  induction n as [|n IH]; intros i cxs cys px py s c xv yv xvals yvals breaking H.
  - injection H as _ _ <-. left. reflexivity.
  - cbn [transform_loop] in H.
    bind_inv H. bind_inv H. bind_inv H.
    destruct b.
    + injection H as _ _ <-. right. eexists. reflexivity.
    + eapply IH. exact H.
Qed.

(** The events of a pass through the Ready branch hold one call of the
    fitter, one of the solver and one steering message; the markers are the
    three of the debug block, or none without it. *)
Lemma ready_pass_counts (s s' : Node) (events : list Event) :
  ready s = true ->
  loop_body s = Some (s', events) ->
  count is_polyfit_call events = 1%nat
  /\ count is_Solve_call events = 1%nat
  /\ count is_angle_publication events = 1%nat
  /\ marker_topics events
     = if m_debug s
       then [mpc_closest_cpp; mpc_next_pos_cpp; mpc_poly_cpp] else [].
Proof.
  intros Hready Hrun.
  destruct (ready_loop_body s Hready) as (v & psi & x & y & Hbody).
  rewrite Hbody in Hrun. apply track_inv in Hrun.
  destruct Hrun as (closest & cxs & cys & xvals & yvals & breaking & markers
                    & c0 & c1 & c2 & c3 & vars & controller & steering & acc
                    & Hrun).
  cbv zeta in Hrun.
  destruct Hrun as (_ & _ & Hloop & _ & _ & _ & _ & _ & _ & _ & Hmarkers
                    & _ & ->).
  assert (Hm : marker_topics markers
               = (if m_debug s
                  then [mpc_closest_cpp; mpc_next_pos_cpp; mpc_poly_cpp]
                  else [])
               /\ count is_Solve_call markers = 0%nat
               /\ count is_polyfit_call markers = 0%nat
               /\ count is_angle_publication markers = 0%nat).
  { destruct (m_debug s).
    - apply debug_markers_shape in Hmarkers. tauto.
    - subst markers. repeat split. }
  destruct Hm as (Hm1 & Hm2 & Hm3 & Hm4).
  rewrite !count_app, !marker_topics_app, Hm1, Hm2, Hm3, Hm4.
  apply transform_loop_breaking_shape in Hloop.
  destruct Hloop as [->|(k & ->)]; repeat split;
    simpl; rewrite ?app_nil_r; reflexivity.
Qed.

(** Once the node is ready every pass of a run goes through the Ready
    branch: the run holds as many calls of the fitter, calls of the solver
    and steering messages as it has passes. *)
Theorem ready_run_one_solve_per_pass :
  forall (deliveries : list (list Message)) (s s' : Node) (events : list Event),
    ready s = true ->
    loop deliveries s = Some (s', events) ->
    count is_polyfit_call events = length deliveries
    /\ count is_Solve_call events = length deliveries
    /\ count is_angle_publication events = length deliveries.
Proof.
  induction deliveries as [|msgs deliveries IH]; intros s s' events Hready H.
  - injection H as _ <-. repeat split.
  - cbn [loop] in H. bind_inv H. destruct p as [s1 events1].
    bind_inv H. destruct p as [s2 events2]. injection H as _ <-.
    destruct (ready_pass_counts s s1 events1 Hready E) as (H1 & H2 & H3 & _).
    assert (Hready' : ready (spinOnce msgs s1) = true).
    { apply (flags_kept_ready s); [|exact Hready].
      eapply flags_kept_trans;
        [apply (loop_body_keeps_flags _ _ _ E)|apply spinOnce_keeps_flags]. }
    destruct (IH _ _ _ Hready' E0) as (K1 & K2 & K3).
    rewrite !count_app, H1, H2, H3, K1, K2, K3. repeat split.
Qed.

(** In debug mode a pass through the Ready branch returns whenever the path
    is a non-empty pair of parallel vectors, the window has at least one
    point, the fitter answers at least four coefficients, and the solver an
    even number of values, two or more. *)
Theorem loop_body_returns_in_debug (s : Node) :
  ready s = true ->
  m_debug s = true ->
  length (m_pts_x s) = length (m_pts_y s) ->
  (0 < length (m_pts_x s))%nat ->
  (Z.of_nat (length (m_pts_x s)) < 2 ^ 31)%Z ->
  (1 <= NUM_STEPS_POLY)%nat ->
  (forall xs ys, (4 <= length (polyfit xs ys POLY_DEGREE))%nat) ->
  (forall c st co,
     (2 <= length (fst (Solve c st co)))%nat
     /\ Nat.even (length (fst (Solve c st co))) = true) ->
  exists s' events,
    loop_body s = Some (s', events)
    /\ marker_topics events = [mpc_closest_cpp; mpc_next_pos_cpp; mpc_poly_cpp].
Proof.
  intros Hready Hdebug Hlen Hpos Hsz Hwin Hfit Hsolve.
  assert (Hret : exists s' events, loop_body s = Some (s', events)).
  { destruct (ready_loop_body s Hready) as (v & psi & x & y & ->).
    unfold track.
    destruct (find_closest_returns (m_pts_x s) (m_pts_y s) x y Hlen Hsz)
      as (closest & -> & _).
    cbn [bind].
    destruct (closest_pts_loop_returns NUM_STEPS_POLY 0 (m_pts_x s) (m_pts_y s)
                (int_sub closest NUM_STEPS_BACK) [] [] Hlen Hpos ltac:(lia))
      as (cxs & cys & Hw).
    rewrite Hw. cbn [bind].
    destruct (closest_pts_loop_length _ _ _ _ _ _ _ _ _ Hw) as [Hcx Hcy].
    simpl in Hcx, Hcy.
    destruct (transform_loop_accepts cxs cys x y (sin psi) (cos psi) Hcx Hcy)
      as (m & breaking & -> & Hm & _ & Hbrk).
    cbn [bind].
    set (xvals := firstn m _). set (yvals := firstn m _).
    assert (Hxl : length xvals = m).
    { subst xvals. rewrite length_firstn, length_local_xs by congruence. lia. }
    assert (Hyl : length yvals = m).
    { subst yvals. rewrite length_firstn, length_local_ys by congruence. lia. }
    assert (Hm1 : (1 <= m)%nat).
    { destruct (Nat.lt_ge_cases m NUM_STEPS_POLY) as [Hlt|Hge];
        [destruct (Hbrk Hlt); lia|lia]. }
    specialize (Hfit xvals yvals).
    destruct (polyfit xvals yvals POLY_DEGREE)
      as [|c0 [|c1 [|c2 [|c3 rest]]]] eqn:Hcoeffs;
      simpl in Hfit; try lia.
    cbn [nth_error bind].
    match goal with
    | |- context [Solve ?c ?st ?co] =>
        specialize (Hsolve c st co);
        destruct (Solve c st co) as [vars controller]
    end.
    cbn [fst] in Hsolve. destruct Hsolve as [Hvl Hve].
    destruct vars as [|steering [|acceleration rest']];
      try (simpl in Hvl; lia).
    cbn [nth_error bind]. rewrite Hdebug.
    destruct (debug_markers_returns xvals yvals (c0 :: c1 :: c2 :: c3 :: rest)
                (steering :: acceleration :: rest') x y (sin psi) (cos psi)
                ltac:(congruence) ltac:(lia) Hvl Hve) as (markers & ->).
    cbn [bind]. eexists _, _. reflexivity. }
  destruct Hret as (s' & events & Hrun).
  exists s', events. split; [exact Hrun|].
  destruct (ready_pass_counts s s' events Hready Hrun) as (_ & _ & _ & H).
  rewrite Hdebug in H. exact H.
Qed.

End PassCounts.

(** ** Edges of a pass *)

Section PassEdges.
Context {hdr : Header} {ext : Collaborators}.

(** A node that is ready on an empty path (an empty centerline message
    sets the flag like any other) does not get through a pass: the scan
    finds nothing, and the first window index is a remainder by the path
    length 0. *)
Theorem empty_path_pass_is_undefined (s : Node) :
  ready s = true ->
  m_pts_x s = [] ->
  (1 <= NUM_STEPS_POLY)%nat ->
  loop_body s = None.
Proof.
  intros Hready Hempty Hwin.
  destruct (ready_loop_body s Hready) as (v & psi & x & y & ->).
  unfold track. rewrite Hempty. unfold find_closest.
  cbn [find_closest_from bind].
  destruct NUM_STEPS_POLY as [|n]; [lia|]. reflexivity.
Qed.

(** With a latency of 0 the pipeline runs on the stored state itself:
    speed, heading and position go through the latency step unchanged,
    whatever the last steering and throttle. *)
Theorem zero_latency_pass (s : Node) :
  ready s = true ->
  m_latency s = 0%R ->
  loop_body s = track s (m_speed s) (m_psi s) (m_pos_x s) (m_pos_y s).
Proof.
  intros Hready Hzero. unfold loop_body. unfold ready in Hready.
  rewrite Hready. cbv zeta. rewrite Hzero.
  rewrite !Rmult_0_l, !Rplus_0_r, Rminus_0_r. reflexivity.
Qed.

(** The "X delta too low" line is logged exactly when the window is cut
    short, once, and the position it names is the number of points
    pushed; as many y as x values are pushed. *)
Theorem break_warning_iff_truncated
  (cxs cys : list R) (px py s c : R) (xvals yvals : list R)
  (breaking : list Event) :
  length cxs = NUM_STEPS_POLY ->
  length cys = NUM_STEPS_POLY ->
  transform_loop NUM_STEPS_POLY 0 cxs cys px py s c [] []
  = Some (xvals, yvals, breaking) ->
  length yvals = length xvals
  /\ ((length xvals = NUM_STEPS_POLY /\ breaking = [])
      \/ ((POLY_DEGREE < length xvals < NUM_STEPS_POLY)%nat
          /\ breaking = [ROS_WARN (x_delta_too_low_at (length xvals))])).
Proof.
  intros Hx Hy Hrun.
  destruct (transform_loop_inv cxs cys px py s c NUM_STEPS_POLY 0
              ltac:(congruence) ltac:(lia))
    as (m & breaking' & Hrun' & Hm & _ & Hbrk & Hfull).
  cbn [firstn] in Hrun'. rewrite Hrun in Hrun'.
  injection Hrun' as -> -> ->.
  rewrite !length_firstn, length_local_xs, length_local_ys by congruence.
  rewrite Hx. replace (Nat.min m NUM_STEPS_POLY) with m by lia.
  split; [reflexivity|].
  destruct (Nat.eq_dec m NUM_STEPS_POLY) as [Heq|Hne].
  - left. split; [exact Heq|]. apply Hfull. congruence.
  - right. destruct (Hbrk ltac:(lia)) as (Hd & _ & Hb).
    split; [lia|exact Hb].
Qed.

(** With a positive threshold the x values handed to the fitter increase
    strictly from position [POLY_DEGREE] on. *)
Theorem accepted_xs_increase
  (cxs cys : list R) (px py s c : R) (xvals yvals : list R)
  (breaking : list Event) :
  (0 < X_DELTA_MIN_VALUE)%R ->
  length cxs = NUM_STEPS_POLY ->
  length cys = NUM_STEPS_POLY ->
  transform_loop NUM_STEPS_POLY 0 cxs cys px py s c [] []
  = Some (xvals, yvals, breaking) ->
  forall k, (POLY_DEGREE < k < length xvals)%nat ->
    (nth (k - 1) xvals 0 < nth k xvals 0)%R.
Proof.
  intros Hpos Hx Hy Hrun k Hk.
  destruct (transform_loop_accepts cxs cys px py s c Hx Hy)
    as (m & breaking' & Hrun' & Hm & Hacc & _).
  rewrite Hrun in Hrun'. injection Hrun' as -> -> _.
  rewrite length_firstn, length_local_xs in Hk by congruence.
  rewrite !nth_firstn.
  destruct (Nat.ltb_spec k m) as [_|Hge]; [|lia].
  destruct (Nat.ltb_spec (k - 1) m) as [_|Hge]; [|lia].
  specialize (Hacc k ltac:(lia)). unfold x_delta in Hacc. lra.
Qed.

Lemma closest_pts_loop_points :
  forall (n i : nat) (pts_x pts_y : list R) (closest_idx : Z)
         (acc_x acc_y cxs cys : list R),
    closest_pts_loop n i pts_x pts_y closest_idx acc_x acc_y = Some (cxs, cys) ->
    length acc_x = length acc_y ->
    (forall k, (k < length acc_x)%nat ->
       exists j, nth_error pts_x j = Some (nth k acc_x 0%R)
                 /\ nth_error pts_y j = Some (nth k acc_y 0%R)) ->
    forall k, (k < length cxs)%nat ->
      exists j, nth_error pts_x j = Some (nth k cxs 0%R)
                /\ nth_error pts_y j = Some (nth k cys 0%R).
Proof.
  induction n as [|n IH];
    intros i pts_x pts_y closest_idx acc_x acc_y cxs cys H Hlen Hacc.
  - injection H as <- <-. exact Hacc.
  - cbn [closest_pts_loop] in H.
    bind_inv H. bind_inv H. bind_inv H.
    apply (IH _ _ _ _ _ _ _ _ H).
    + rewrite !length_app. simpl. lia.
    + intros k Hk. rewrite length_app in Hk. simpl in Hk.
      destruct (Nat.lt_ge_cases k (length acc_x)) as [Hlt|Hge].
      * rewrite !app_nth1 by lia. apply Hacc. exact Hlt.
      * assert (k = length acc_x) by lia. subst k.
        rewrite !app_nth2 by lia. rewrite Hlen, Nat.sub_diag.
        exists (Z.to_nat (to_size_t z)). split; assumption.
Qed.

(** The extracted window has [NUM_STEPS_POLY] points and each is a point
    of the path: its x and its y are read at one and the same index. *)
Theorem window_points_are_path_points
  (pts_x pts_y : list R) (closest_idx : Z) (cxs cys : list R) :
  closest_pts_loop NUM_STEPS_POLY 0 pts_x pts_y closest_idx [] []
  = Some (cxs, cys) ->
  length cxs = NUM_STEPS_POLY
  /\ length cys = NUM_STEPS_POLY
  /\ forall k, (k < NUM_STEPS_POLY)%nat ->
       exists j, nth_error pts_x j = Some (nth k cxs 0%R)
                 /\ nth_error pts_y j = Some (nth k cys 0%R).
Proof.
  intros H.
  destruct (closest_pts_loop_length _ _ _ _ _ _ _ _ _ H) as [Hcx Hcy].
  simpl in Hcx, Hcy. split; [exact Hcx|]. split; [exact Hcy|].
  intros k Hk.
  apply (closest_pts_loop_points _ _ _ _ _ _ _ _ _ H); [reflexivity| |lia].
  intros k' Hk'. simpl in Hk'. lia.
Qed.

(** On a path whose length divides 2^64 (a power of two up to 2^31) the
    window index is the circular one at every position, for negative
    back-shifted indices too. *)
Theorem window_idx_circular_when_length_divides
  (closest_idx : Z) (i size : nat) :
  (0 < size)%nat -> (Z.of_nat size <= 2 ^ 31)%Z ->
  (2 ^ 64 mod Z.of_nat size = 0)%Z ->
  window_idx closest_idx i size
  = Some ((closest_idx + Z.of_nat i * STEP_POLY) mod Z.of_nat size)%Z.
Proof.
  intros Hpos Hsz Hdiv. rewrite window_idx_eq by assumption.
  f_equal. apply Z.mod_mod_divide.
  apply Z.mod_divide; [lia|exact Hdiv].
Qed.

End PassEdges.

(** ** Heading from the orientation *)

Section Heading.
Local Open Scope R_scope.

(** The tangent has period PI. *)
Lemma ratio_shift (t k : R) :
  cos t <> 0 -> (k = PI \/ k = - PI) -> sin t / cos t = tan (t + k).
Proof.
  intros Hc [-> | ->]; unfold tan.
  - rewrite neg_sin, neg_cos. field. exact Hc.
  - replace (t + - PI) with (t - PI) by lra.
    rewrite sin_minus, cos_minus, sin_PI, cos_PI. field. exact Hc.
Qed.

(** [atan2] gives back the angle of a point of the unit circle. *)
Lemma atan2_sin_cos (t : R) : - PI < t <= PI -> atan2 (sin t) (cos t) = t.
Proof.
  intros Ht. pose proof PI_RGT_0 as Hpi. unfold atan2.
  destruct (Rlt_dec 0 (cos t)) as [Hpos|Hnpos].
  - rewrite (proj2 (double_lt_true 0 (cos t)) Hpos).
    apply atan_tan.
    destruct (Rle_dec (PI / 2) t) as [Hge|Hlt].
    { pose proof (cos_le_0 t Hge ltac:(lra)). lra. }
    destruct (Rle_dec t (- (PI / 2))) as [Hle|Hgt].
    { pose proof (cos_le_0 (- t) ltac:(lra) ltac:(lra)) as H.
      rewrite cos_neg in H. lra. }
    lra.
  - rewrite (proj2 (double_lt_false 0 (cos t)) ltac:(lra)).
    destruct (Rlt_dec (cos t) 0) as [Hneg|Hnneg].
    + rewrite (proj2 (double_lt_true (cos t) 0) Hneg).
      assert (Hout : t < - (PI / 2) \/ PI / 2 < t).
      { destruct (Rlt_dec t (- (PI / 2))) as [H|H]; [left; exact H|].
        destruct (Rlt_dec (PI / 2) t) as [H'|H']; [right; exact H'|].
        pose proof (cos_ge_0 t ltac:(lra) ltac:(lra)). lra. }
      destruct Hout as [Hlow|Hhigh].
      * assert (Hsin : sin t < 0) by (apply sin_lt_0_var; lra).
        rewrite (proj2 (double_lt_true (sin t) 0) Hsin).
        rewrite (ratio_shift t PI) by (lra || auto).
        rewrite atan_tan by lra. lra.
      * assert (Hsin : 0 <= sin t) by (apply sin_ge_0; lra).
        rewrite (proj2 (double_lt_false (sin t) 0) Hsin).
        rewrite (ratio_shift t (- PI)) by (lra || auto).
        rewrite atan_tan by lra. lra.
    + rewrite (proj2 (double_lt_false (cos t) 0) ltac:(lra)).
      assert (Hzero : cos t = 0) by lra.
      assert (Hhalf : t = PI / 2 \/ t = - (PI / 2)).
      { destruct (Rlt_dec t (- (PI / 2))) as [H|H].
        { pose proof (cos_lt_0 (- t) ltac:(lra) ltac:(lra)) as Hc.
          rewrite cos_neg in Hc. lra. }
        destruct (Rlt_dec (PI / 2) t) as [H'|H'].
        { pose proof (cos_lt_0 t ltac:(lra) ltac:(lra)). lra. }
        destruct (Req_dec t (PI / 2)) as [E|E]; [left; exact E|].
        destruct (Req_dec t (- (PI / 2))) as [E'|E']; [right; exact E'|].
        pose proof (cos_gt_0 t ltac:(lra) ltac:(lra)). lra. }
      destruct Hhalf as [-> | ->].
      * rewrite sin_PI2. decide_double_lt. reflexivity.
      * rewrite sin_neg, sin_PI2. decide_double_lt. lra.
Qed.

Lemma yaw_quaternion_siny (yaw : R) :
  2 * (o_w (yaw_quaternion yaw) * o_z (yaw_quaternion yaw)
       + o_x (yaw_quaternion yaw) * o_y (yaw_quaternion yaw)) = sin yaw.
Proof.
  cbn [yaw_quaternion o_w o_x o_y o_z].
  pose proof (sin_2a (yaw / 2)) as H.
  replace (2 * (yaw / 2)) with yaw in H by lra.
  rewrite H. ring.
Qed.

Lemma yaw_quaternion_cosy (yaw : R) :
  1 - 2 * (o_y (yaw_quaternion yaw) * o_y (yaw_quaternion yaw)
           + o_z (yaw_quaternion yaw) * o_z (yaw_quaternion yaw)) = cos yaw.
Proof.
  cbn [yaw_quaternion o_w o_x o_y o_z].
  pose proof (cos_2a_sin (yaw / 2)) as H.
  replace (2 * (yaw / 2)) with yaw in H by lra.
  rewrite H. ring.
Qed.

(** A pose whose orientation is a rotation by [yaw] about the vertical
    axis, [yaw] in (-PI, PI], is stored with heading [yaw], together with
    its position. *)
Theorem heading_of_yaw_quaternion {ext : Collaborators}
  (yaw x y : R) (s : Node) :
  - PI < yaw <= PI ->
  m_psi (pf_pose_odom_cb x y (yaw_quaternion yaw) s) = yaw
  /\ m_pos_x (pf_pose_odom_cb x y (yaw_quaternion yaw) s) = x
  /\ m_pos_y (pf_pose_odom_cb x y (yaw_quaternion yaw) s) = y.
Proof.
  intros Hyaw. split; [|split; reflexivity].
  cbn [m_psi pf_pose_odom_cb].
  rewrite yaw_quaternion_siny, yaw_quaternion_cosy.
  apply atan2_sin_cos. exact Hyaw.
Qed.

End Heading.

(** ** The polynomial marker and the start-up warning *)

(** The values behind the polynomial marker: the two placeholders, then the
    fitted polynomial sampled at the eleven abscissas 0, 0.2, ..., 2.0. *)
Theorem poly_marker_samples (coeffs : list R) :
  poly_samples poly_samples_fuel coeffs 0 [0%R; 0%R]
  = [0%R; 0%R]
    ++ flat_map (fun k => [(0.2 * INR k)%R; polyeval coeffs (0.2 * INR k)])
         (seq 0 11).
Proof.
  unfold poly_samples_fuel. cbn [poly_samples]. decide_double_lt.
  cbn [app flat_map seq INR].
  repeat (f_equal; try lra).
Qed.

Section LatencyWarning.
Context {libc : Libc}.

(** Whenever [main] enters the loop it has printed the parameters, and the
    latency warning exactly when the latency argument converts to more than
    1: an implausible latency warns and does not stop the start-up. *)
Theorem latency_warning_is_not_fatal
  (argv : list string) (params : Params) (out : list Output) :
  main argv = enters_loop params out ->
  latency params = atof (argv_at argv 3)
  /\ In (parameters_are params) out
  /\ (In (latency_too_high (latency params)) out <-> (1 < latency params)%R)
  /\ length out = (if double_lt 1 (latency params) then 2 else 1)%nat.
Proof.
  intros Hmain. unfold main in Hmain.
  destruct (length argv =? 12)%nat;
    [|destruct (12 <? length argv)%nat; discriminate].
  assert (Hstart : forall p, start p = enters_loop params out ->
            In (parameters_are params) out
            /\ (In (latency_too_high (latency params)) out
                <-> (1 < latency params)%R)
            /\ length out = (if double_lt 1 (latency params) then 2 else 1)%nat).
  { intros p Hp. unfold start in Hp. injection Hp as -> <-.
    split; [left; reflexivity|].
    destruct (double_lt 1 (latency params)) eqn:Hl.
    - apply double_lt_true in Hl. split; [|reflexivity].
      split; [intros _; exact Hl|intros _; right; left; reflexivity].
    - apply double_lt_false in Hl. split; [|reflexivity].
      split; [|lra]. intros [H|[]]; discriminate. }
  destruct (String.eqb (argv_at argv 11) "true").
  - split; [|apply (Hstart _ Hmain)].
    unfold start in Hmain. injection Hmain as <- _. reflexivity.
  - destruct (String.eqb (argv_at argv 11) "false"); [|discriminate].
    split; [|apply (Hstart _ Hmain)].
    unfold start in Hmain. injection Hmain as <- _. reflexivity.
Qed.

End LatencyWarning.

(** ** What a run never changes *)

Section FixedConfiguration.
Context {hdr : Header} {ext : Collaborators}.

(** Through every run from construction the debug flag is the start-up
    toggle, and the latency of the latency step is the value the member has
    before the constructor runs: neither the constructor, nor a callback,
    nor a pass of the loop assigns it, from the start-up latency or
    otherwise. *)
Theorem run_keeps_configuration
  (params : Params) (u : Unassigned) (deliveries : list (list Message))
  (s : Node) (events : list Event) :
  loop deliveries (MPCControllerNode params u) = Some (s, events) ->
  m_debug s = debug params /\ m_latency s = u_latency u.
Proof.
  intros H.
  refine (loop_invariant
            (fun s0 => m_debug s0 = debug params /\ m_latency s0 = u_latency u)
            _ _ deliveries _ _ _ H _).
  - intros msg s0 Hs0. destruct msg; exact Hs0.
  - intros s0 s1 events0 Hbody Hs0. apply loop_body_frame in Hbody.
    destruct Hbody as (_ & _ & _ & _ & _ & _ & _ & _ & _ & _ & _ & -> & ->).
    exact Hs0.
  - split; reflexivity.
Qed.

Lemma loop_body_markers (s s' : Node) (events : list Event) :
  m_debug s = false ->
  loop_body s = Some (s', events) ->
  marker_topics events = [].
Proof.
  intros Hdebug Hrun. destruct (ready s) eqn:Hready.
  - destruct (ready_pass_counts s s' events Hready Hrun) as (_ & _ & _ & H).
    rewrite Hdebug in H. exact H.
  - rewrite (not_ready_loop_body s Hready) in Hrun.
    injection Hrun as _ <-. reflexivity.
Qed.

(** A node started with the debug toggle off never publishes a marker. *)
Theorem no_marker_without_debug
  (params : Params) (u : Unassigned) :
  debug params = false ->
  forall (deliveries : list (list Message)) (s : Node) (events : list Event),
    loop deliveries (MPCControllerNode params u) = Some (s, events) ->
    marker_topics events = [].
Proof.
  intros Hdebug.
  assert (Hgen : forall deliveries s0 s events,
             m_debug s0 = false ->
             loop deliveries s0 = Some (s, events) ->
             marker_topics events = []).
  { induction deliveries as [|msgs deliveries IH]; intros s0 s events Hd H.
    - injection H as _ <-. reflexivity.
    - cbn [loop] in H. bind_inv H. destruct p as [s1 events1].
      bind_inv H. destruct p as [s2 events2]. injection H as _ <-.
      rewrite marker_topics_app, (loop_body_markers s0 s1 events1 Hd E).
      apply (IH (spinOnce msgs s1) s2 events2); [|exact E0].
      assert (Hspin : forall l n, m_debug (spinOnce l n) = m_debug n).
      { induction l as [|m l IHl]; intros n; [reflexivity|].
        simpl. rewrite IHl. destruct m; reflexivity. }
      rewrite Hspin. apply loop_body_frame in E.
      destruct E as (_ & _ & _ & _ & _ & _ & _ & _ & _ & _ & _ & _ & ->).
      exact Hd. }
  intros deliveries s events H.
  apply (Hgen deliveries (MPCControllerNode params u) s events); [|exact H].
  exact Hdebug.
Qed.

End FixedConfiguration.

(** ** The further properties on the example configuration *)

Section MoreOnExample.
#[local] Existing Instance Example.header.
#[local] Existing Instance Example.collaborators.
#[local] Existing Instance Example.libc.

(** One pass of the node as constructed, then a speed message. *)
Lemma example_first_pass :
  loop [[odom 2]] Example.fresh
  = Some (spinOnce [odom 2] Example.fresh,
          [ROS_WARN (no_optimization false false false false)]).
Proof. reflexivity. Qed.

(** One pass of the example node, with nothing delivered after it. *)
Lemma example_ready_run :
  loop [[]] Example.on_path
  = Some (Example.after_pass, Example.pass_events ++ []).
Proof. cbn [loop]. rewrite example_pass. reflexivity. Qed.

Lemma run_inputs_on_example :
  loop [[odom 2]] Example.fresh
  = Some (spinOnce [odom 2] Example.fresh,
          [ROS_WARN (no_optimization false false false false)])
  /\ same_inputs (spinOnce (concat [[odom 2]]) Example.fresh)
       (spinOnce [odom 2] Example.fresh).
Proof.
  split; [exact example_first_pass|].
  exact (run_inputs_are_deliveries _ _ _ _ example_first_pass).
Defined.

Lemma path_vectors_parallel_on_example :
  loop [[centerline Example.path]] Example.fresh
  = Some (spinOnce [centerline Example.path] Example.fresh,
          [ROS_WARN (no_optimization false false false false)])
  /\ length (m_pts_x (spinOnce [centerline Example.path] Example.fresh))
     = length (m_pts_y (spinOnce [centerline Example.path] Example.fresh)).
Proof.
  assert (Hrun : loop [[centerline Example.path]] Example.fresh
                 = Some (spinOnce [centerline Example.path] Example.fresh,
                         [ROS_WARN (no_optimization false false false false)]))
    by reflexivity.
  split; [exact Hrun|].
  exact (path_vectors_stay_parallel Example.params Example.unassigned _ _ _ Hrun).
Defined.

Lemma no_pass_without_path_on_example :
  forallb (fun msg => negb (is_centerline msg))
    (concat [[odom 1]; [pf_pose_odom 0 0 Example.upright]; []]) = true
  /\ exists s events,
       loop [[odom 1]; [pf_pose_odom 0 0 Example.upright]; []] Example.fresh
       = Some (s, events)
       /\ length events = 3%nat
       /\ forallb is_no_optimization events = true.
Proof.
  split; [reflexivity|].
  apply (no_pass_before_all_inputs Example.params Example.unassigned
           [[odom 1]; [pf_pose_odom 0 0 Example.upright]; []]).
  left. reflexivity.
Defined.

Lemma get_marker_on_two_pairs :
  (2 <= length [0.25; 1; 1; 2]%R)%nat
  /\ Nat.even (length [0.25; 1; 1; 2]%R) = true
  /\ exists ps, get_marker [0.25; 1; 1; 2]%R 0 0 0 1 = Some ps.
Proof.
  split; [simpl; lia|]. split; [reflexivity|].
  apply (proj1 (get_marker_point_count [0.25; 1; 1; 2]%R 0 0 0 1)).
  split; [simpl; lia|reflexivity].
Defined.

Lemma ready_run_counts_on_example :
  ready Example.on_path = true
  /\ loop [[]] Example.on_path
     = Some (Example.after_pass, Example.pass_events ++ [])
  /\ count is_Solve_call (Example.pass_events ++ []) = 1%nat.
Proof.
  split; [reflexivity|]. split; [exact example_ready_run|].
  exact (proj1 (proj2 (ready_run_one_solve_per_pass [[]] Example.on_path
                         Example.after_pass _ eq_refl example_ready_run))).
Defined.

Lemma debug_pass_on_example :
  ready Example.on_path_debug = true
  /\ m_debug Example.on_path_debug = true
  /\ exists s' events,
       loop_body Example.on_path_debug = Some (s', events)
       /\ marker_topics events
          = [mpc_closest_cpp; mpc_next_pos_cpp; mpc_poly_cpp].
Proof.
  split; [reflexivity|]. split; [reflexivity|].
  apply loop_body_returns_in_debug.
  - reflexivity.
  - reflexivity.
  - reflexivity.
  - simpl. lia.
  - simpl. lia.
  - simpl. lia.
  - intros xs ys. simpl. lia.
  - intros c st co. simpl. split; [lia|reflexivity].
Defined.

Lemma empty_path_on_example :
  ready Example.on_empty_path = true
  /\ m_pts_x Example.on_empty_path = []
  /\ (1 <= NUM_STEPS_POLY)%nat
  /\ loop_body Example.on_empty_path = None.
Proof.
  assert (Hwin : (1 <= NUM_STEPS_POLY)%nat) by (simpl; lia).
  split; [reflexivity|]. split; [reflexivity|]. split; [exact Hwin|].
  exact (empty_path_pass_is_undefined Example.on_empty_path eq_refl eq_refl Hwin).
Defined.

Lemma zero_latency_on_example :
  ready Example.on_path_no_latency = true
  /\ m_latency Example.on_path_no_latency = 0%R
  /\ loop_body Example.on_path_no_latency
     = track Example.on_path_no_latency
         (m_speed Example.on_path_no_latency)
         (m_psi Example.on_path_no_latency)
         (m_pos_x Example.on_path_no_latency)
         (m_pos_y Example.on_path_no_latency).
Proof.
  split; [reflexivity|]. split; [reflexivity|].
  exact (zero_latency_pass Example.on_path_no_latency eq_refl eq_refl).
Defined.

Lemma break_warning_on_straight_window :
  let cxs := [0; 1; 2; 3; 4]%R in
  let cys := [0; 0; 0; 0; 0]%R in
  length cxs = NUM_STEPS_POLY
  /\ length cys = NUM_STEPS_POLY
  /\ exists xvals yvals breaking,
       transform_loop NUM_STEPS_POLY 0 cxs cys 0 0 0 1 [] []
       = Some (xvals, yvals, breaking)
       /\ length yvals = length xvals.
Proof.
  intros cxs cys. split; [reflexivity|]. split; [reflexivity|].
  destruct (transform_loop_accepts (hdr := Example.header)
              cxs cys 0 0 0 1 eq_refl eq_refl)
    as (m & breaking & Hrun & _).
  eexists _, _, breaking. split; [exact Hrun|].
  exact (proj1 (break_warning_iff_truncated (hdr := Example.header)
                  cxs cys 0 0 0 1 _ _ _ eq_refl eq_refl Hrun)).
Defined.

Lemma accepted_xs_on_straight_window :
  let cxs := [0; 1; 2; 3; 4]%R in
  let cys := [0; 0; 0; 0; 0]%R in
  (0 < X_DELTA_MIN_VALUE)%R
  /\ length cxs = NUM_STEPS_POLY
  /\ length cys = NUM_STEPS_POLY
  /\ exists xvals yvals breaking,
       transform_loop NUM_STEPS_POLY 0 cxs cys 0 0 0 1 [] []
       = Some (xvals, yvals, breaking)
       /\ forall k, (POLY_DEGREE < k < length xvals)%nat ->
            (nth (k - 1) xvals 0 < nth k xvals 0)%R.
Proof.
  intros cxs cys.
  assert (Hpos : (0 < X_DELTA_MIN_VALUE)%R) by (simpl; lra).
  split; [exact Hpos|]. split; [reflexivity|]. split; [reflexivity|].
  destruct (transform_loop_accepts (hdr := Example.header)
              cxs cys 0 0 0 1 eq_refl eq_refl)
    as (m & breaking & Hrun & _).
  eexists _, _, breaking. split; [exact Hrun|].
  exact (accepted_xs_increase (hdr := Example.header)
           cxs cys 0 0 0 1 _ _ _ Hpos eq_refl eq_refl Hrun).
Defined.

Lemma window_points_on_example :
  closest_pts_loop NUM_STEPS_POLY 0 [0; 10; 20]%R [0; 0; 0]%R
    (int_sub 0 NUM_STEPS_BACK) [] []
  = Some ([0; 0; 10; 20; 0]%R, [0; 0; 0; 0; 0]%R)
  /\ length [0; 0; 10; 20; 0]%R = NUM_STEPS_POLY.
Proof.
  split; [exact example_window|].
  exact (proj1 (window_points_are_path_points _ _ _ _ _ example_window)).
Defined.

Lemma window_idx_on_four_points :
  (2 ^ 64 mod Z.of_nat 4 = 0)%Z
  /\ window_idx (-1) 0 4 = Some ((-1 + Z.of_nat 0 * STEP_POLY) mod Z.of_nat 4)%Z
  /\ ((-1 + Z.of_nat 0 * STEP_POLY) mod Z.of_nat 4 = 3)%Z.
Proof.
  assert (Hdiv : (2 ^ 64 mod Z.of_nat 4 = 0)%Z) by reflexivity.
  split; [exact Hdiv|]. split; [|reflexivity].
  apply window_idx_circular_when_length_divides; [lia|simpl; lia|exact Hdiv].
Defined.

Lemma heading_of_no_rotation :
  (- PI < 0 <= PI)%R
  /\ m_psi (pf_pose_odom_cb 1 2 (yaw_quaternion 0) Example.fresh) = 0%R.
Proof.
  assert (Hyaw : (- PI < 0 <= PI)%R) by (pose proof PI_RGT_0; lra).
  split; [exact Hyaw|].
  exact (proj1 (heading_of_yaw_quaternion 0 1 2 Example.fresh Hyaw)).
Defined.

Lemma latency_warning_on_example :
  exists params out,
    main Example.argv_ok = enters_loop params out
    /\ In (parameters_are params) out.
Proof.
  eexists _, _.
  assert (Hmain : main Example.argv_ok
                  = start {| steps_ahead := decimal_atoi "10";
                             dt := decimal_atof "0.1";
                             latency := decimal_atof "0.1";
                             cte_coeff := decimal_atof "1";
                             epsi_coeff := decimal_atof "1";
                             speed_coeff := decimal_atof "1";
                             acc_coeff := decimal_atof "1";
                             steer_coeff := decimal_atof "1";
                             consec_acc_coeff := decimal_atof "1";
                             consec_steer_coeff := decimal_atof "1";
                             debug := false |}) by reflexivity.
  unfold start in Hmain.
  split; [exact Hmain|].
  exact (proj1 (proj2 (latency_warning_is_not_fatal _ _ _ Hmain))).
Defined.

Lemma configuration_kept_on_example :
  loop [[odom 2]] Example.fresh
  = Some (spinOnce [odom 2] Example.fresh,
          [ROS_WARN (no_optimization false false false false)])
  /\ m_debug (spinOnce [odom 2] Example.fresh) = false
  /\ m_latency (spinOnce [odom 2] Example.fresh) = 0.1%R.
Proof.
  split; [exact example_first_pass|].
  exact (run_keeps_configuration Example.params Example.unassigned _ _ _
           example_first_pass).
Defined.

Lemma no_marker_on_example :
  debug Example.params = false
  /\ loop [[odom 2]] Example.fresh
     = Some (spinOnce [odom 2] Example.fresh,
             [ROS_WARN (no_optimization false false false false)])
  /\ marker_topics [ROS_WARN (no_optimization false false false false)] = [].
Proof.
  split; [reflexivity|]. split; [exact example_first_pass|].
  exact (no_marker_without_debug Example.params Example.unassigned eq_refl
           _ _ _ example_first_pass).
Defined.

End MoreOnExample.
